(** * An Intel 8080 emulator: shallow embedding of [intel8080.cpp]

    The development follows the source file function by function.
    Bytes ([byte], an 8-bit unsigned) and byte pairs ([bytePair], a 16-bit
    unsigned) are integers of [Z]; every place where the C++ code truncates
    a result to 8 or 16 bits is written out with [wrap8] and [wrap16].

    The processor object is the record [cpu]; a member function
    [void cpu::f(args)] becomes a function [f args : cpu -> cpu], and one
    that also returns a value becomes [cpu -> T * cpu]. *)

From Stdlib Require Import ZArith List Bool String Ascii Lia.
Import ListNotations.
Local Open Scope Z_scope.

(** ** Machine integers *)

Definition wrap8 (x : Z) : Z := x mod 256.
Definition wrap16 (x : Z) : Z := x mod 65536.

(** Conversion of an integer to [bool], as C++ does for a condition. *)
Definition truthy (x : Z) : bool := negb (x =? 0).

(** Modelled from the spec: the header [intel8080.hpp] is missing; it declares
    the enumeration [flagPos].  The positions are those of the spec's flags
    register: bit 0 Carry, bit 2 Parity, bit 4 Auxiliary Carry, bit 6 Zero,
    bit 7 Sign. *)
Definition carry : Z := 0.
Definition parity : Z := 2.
Definition auxCarry : Z := 4.
Definition zero : Z := 6.
Definition sign : Z := 7.

(** Modelled from the spec: the header [intel8080.hpp] is missing; it declares
    [lowBitsOf(x, n)], the [n] low-order bits of [x]. *)
Definition lowBitsOf (x n : Z) : Z := Z.land x (Z.ones n).

(** Modelled from the spec: the header [intel8080.hpp] is missing; it declares
    [highBitsOf(x, n)], the [n] high-order bits of the byte [x] (the source
    comments on [highBitsOf(A(), 1)] as "extract bit 7"). *)
Definition highBitsOf (x n : Z) : Z := Z.shiftr x (8 - n).

(** The compiler builtin [__builtin_parity]: the number of 1-bits of its
    (unsigned) argument, modulo 2. *)
Fixpoint popcount_pos (p : positive) : Z :=
  match p with
  | xH => 1
  | xO q => popcount_pos q
  | xI q => 1 + popcount_pos q
  end.

Definition popcount (x : Z) : Z :=
  match x with
  | Zpos p => popcount_pos p
  | _ => 0
  end.

Definition builtin_parity (x : Z) : Z := popcount x mod 2.

(** ** Register pairs

    [regPair] is a union of a 16-bit [full] and the two bytes [pair[0]]
    (low) and [pair[1]] (high): the record keeps the two bytes, and [full]
    is their little-endian view. *)

Record regPair : Type := mkPair { low : Z; high : Z }.

Definition full (p : regPair) : Z := low p + 256 * high p.

Definition of_full (v : Z) : regPair :=
  {| low := v mod 256; high := (v / 256) mod 256 |}.

(** ** Memory

    [ram] is a pointer to bytes owned by the host: a function from
    addresses to bytes.  A [bytePair] read or written through
    [*(bytePair* )(ram + a)] covers the cells [a] (low byte) and [a + 1]
    (high byte), without wrap-around of [a + 1]: the byte order is that of
    the little-endian host the source is written for, the one in which
    [pair[0]] is the low byte of [full]. *)

Definition memory : Type := Z -> Z.

Definition store8 (m : memory) (a v : Z) : memory :=
  fun x => if x =? a then v else m x.

Definition load16 (m : memory) (a : Z) : Z := m a + 256 * m (a + 1).

Definition store16 (m : memory) (a v : Z) : memory :=
  store8 (store8 m a (v mod 256)) (a + 1) ((v / 256) mod 256).

(** References to a byte ([byte&]) and to a byte pair ([bytePair&]) that the
    source passes around. *)
Inductive ref8 : Type := rA | rFlags | rB | rC | rD | rE | rH | rL | rAtHL.
Inductive ref16 : Type := rPSW | rBC | rDE | rHL | rSP | rPC.

Section Processor.

Context {Dev : Type}.

(** ** Processor state

    The two port callbacks are opaque functions of the host; their effects
    are modelled on a device state [dev] of an arbitrary type [Dev]. *)

Record cpu : Type := mkCpu {
  _PSW : regPair;
  _BC : regPair;
  _DE : regPair;
  _HL : regPair;
  SP : Z;
  PC : Z;
  ram : memory;
  halted : bool;
  interruptsEnabled : bool;
  interruptPending : bool;
  interruptVector : Z;
  portInputHandler : Z -> Dev -> Z * Dev;
  portOutputHandler : Z -> Z -> Dev -> Dev;
  dev : Dev
}.

Definition set_PSW (v : regPair) (s : cpu) : cpu :=
  mkCpu v (_BC s) (_DE s) (_HL s) (SP s) (PC s) (ram s) (halted s)
        (interruptsEnabled s) (interruptPending s) (interruptVector s)
        (portInputHandler s) (portOutputHandler s) (dev s).

Definition set_BC (v : regPair) (s : cpu) : cpu :=
  mkCpu (_PSW s) v (_DE s) (_HL s) (SP s) (PC s) (ram s) (halted s)
        (interruptsEnabled s) (interruptPending s) (interruptVector s)
        (portInputHandler s) (portOutputHandler s) (dev s).

Definition set_DE (v : regPair) (s : cpu) : cpu :=
  mkCpu (_PSW s) (_BC s) v (_HL s) (SP s) (PC s) (ram s) (halted s)
        (interruptsEnabled s) (interruptPending s) (interruptVector s)
        (portInputHandler s) (portOutputHandler s) (dev s).

Definition set_HL (v : regPair) (s : cpu) : cpu :=
  mkCpu (_PSW s) (_BC s) (_DE s) v (SP s) (PC s) (ram s) (halted s)
        (interruptsEnabled s) (interruptPending s) (interruptVector s)
        (portInputHandler s) (portOutputHandler s) (dev s).

Definition set_SP (v : Z) (s : cpu) : cpu :=
  mkCpu (_PSW s) (_BC s) (_DE s) (_HL s) v (PC s) (ram s) (halted s)
        (interruptsEnabled s) (interruptPending s) (interruptVector s)
        (portInputHandler s) (portOutputHandler s) (dev s).

Definition set_PC (v : Z) (s : cpu) : cpu :=
  mkCpu (_PSW s) (_BC s) (_DE s) (_HL s) (SP s) v (ram s) (halted s)
        (interruptsEnabled s) (interruptPending s) (interruptVector s)
        (portInputHandler s) (portOutputHandler s) (dev s).

Definition set_ram (v : memory) (s : cpu) : cpu :=
  mkCpu (_PSW s) (_BC s) (_DE s) (_HL s) (SP s) (PC s) v (halted s)
        (interruptsEnabled s) (interruptPending s) (interruptVector s)
        (portInputHandler s) (portOutputHandler s) (dev s).

Definition set_halted (v : bool) (s : cpu) : cpu :=
  mkCpu (_PSW s) (_BC s) (_DE s) (_HL s) (SP s) (PC s) (ram s) v
        (interruptsEnabled s) (interruptPending s) (interruptVector s)
        (portInputHandler s) (portOutputHandler s) (dev s).

Definition set_interruptsEnabled (v : bool) (s : cpu) : cpu :=
  mkCpu (_PSW s) (_BC s) (_DE s) (_HL s) (SP s) (PC s) (ram s) (halted s)
        v (interruptPending s) (interruptVector s)
        (portInputHandler s) (portOutputHandler s) (dev s).

Definition set_interruptPending (v : bool) (s : cpu) : cpu :=
  mkCpu (_PSW s) (_BC s) (_DE s) (_HL s) (SP s) (PC s) (ram s) (halted s)
        (interruptsEnabled s) v (interruptVector s)
        (portInputHandler s) (portOutputHandler s) (dev s).

Definition set_interruptVector (v : Z) (s : cpu) : cpu :=
  mkCpu (_PSW s) (_BC s) (_DE s) (_HL s) (SP s) (PC s) (ram s) (halted s)
        (interruptsEnabled s) (interruptPending s) v
        (portInputHandler s) (portOutputHandler s) (dev s).

Definition set_dev (v : Dev) (s : cpu) : cpu :=
  mkCpu (_PSW s) (_BC s) (_DE s) (_HL s) (SP s) (PC s) (ram s) (halted s)
        (interruptsEnabled s) (interruptPending s) (interruptVector s)
        (portInputHandler s) (portOutputHandler s) v.

(** ** Accessors ([cpu::PSW] ... [cpu::atSP]) *)

Definition PSW (s : cpu) : Z := full (_PSW s).
Definition BC (s : cpu) : Z := full (_BC s).
Definition DE (s : cpu) : Z := full (_DE s).
Definition HL (s : cpu) : Z := full (_HL s).
Definition A (s : cpu) : Z := high (_PSW s).
Definition flags (s : cpu) : Z := low (_PSW s).
Definition B (s : cpu) : Z := high (_BC s).
Definition C (s : cpu) : Z := low (_BC s).
Definition D (s : cpu) : Z := high (_DE s).
Definition E (s : cpu) : Z := low (_DE s).
Definition H (s : cpu) : Z := high (_HL s).
Definition L (s : cpu) : Z := low (_HL s).
Definition atHL (s : cpu) : Z := ram s (HL s).
Definition atSP (s : cpu) : Z := load16 (ram s) (SP s).

Definition set_atSP (v : Z) (s : cpu) : cpu :=
  set_ram (store16 (ram s) (SP s) v) s.

(** Reading and assigning through a reference. *)
Definition get_r8 (r : ref8) (s : cpu) : Z :=
  match r with
  | rA => A s | rFlags => flags s
  | rB => B s | rC => C s
  | rD => D s | rE => E s
  | rH => H s | rL => L s
  | rAtHL => atHL s
  end.

Definition set_r8 (r : ref8) (v : Z) (s : cpu) : cpu :=
  match r with
  | rA => set_PSW (mkPair (low (_PSW s)) v) s
  | rFlags => set_PSW (mkPair v (high (_PSW s))) s
  | rB => set_BC (mkPair (low (_BC s)) v) s
  | rC => set_BC (mkPair v (high (_BC s))) s
  | rD => set_DE (mkPair (low (_DE s)) v) s
  | rE => set_DE (mkPair v (high (_DE s))) s
  | rH => set_HL (mkPair (low (_HL s)) v) s
  | rL => set_HL (mkPair v (high (_HL s))) s
  | rAtHL => set_ram (store8 (ram s) (HL s) v) s
  end.

Definition get_r16 (r : ref16) (s : cpu) : Z :=
  match r with
  | rPSW => PSW s | rBC => BC s | rDE => DE s | rHL => HL s
  | rSP => SP s | rPC => PC s
  end.

Definition set_r16 (r : ref16) (v : Z) (s : cpu) : cpu :=
  match r with
  | rPSW => set_PSW (of_full v) s
  | rBC => set_BC (of_full v) s
  | rDE => set_DE (of_full v) s
  | rHL => set_HL (of_full v) s
  | rSP => set_SP v s
  | rPC => set_PC v s
  end.

(** ** Flags *)

Definition getFlag (f : Z) (s : cpu) : Z := Z.shiftr (flags s) f mod 2.

(** [flags() |= (1U << f)] and [flags() &= ~(1U << f)]: the result of the
    unsigned operation is stored back into a byte. *)
Definition setFlag (f : Z) (condition : bool) (s : cpu) : cpu :=
  if condition
  then set_r8 rFlags (wrap8 (Z.lor (flags s) (Z.shiftl 1 f))) s
  else set_r8 rFlags (wrap8 (Z.land (flags s) (Z.lnot (Z.shiftl 1 f)))) s.

Definition getHalted (s : cpu) : bool := halted s.

(** [cpu::cpu]: the constructor stores the memory and the two callbacks and
    sets the fixed bit 1 of the flags.  Modelled from the spec: the default
    member initialisers are in the missing header; every other member starts
    at zero ("all other state zeroed"). *)
Definition cpu_new (pih : Z -> Dev -> Z * Dev) (poh : Z -> Z -> Dev -> Dev)
    (preAllocatedRam : memory) (d : Dev) : cpu :=
  setFlag 1 true
    (mkCpu (mkPair 0 0) (mkPair 0 0) (mkPair 0 0) (mkPair 0 0) 0 0
           preAllocatedRam false false false 0 pih poh d).

(** ** Loading code, interrupts, fetching *)

Fixpoint load_loop (orig i : Z) (code : list Z) (m : memory) : memory :=
  match code with
  | [] => m
  | b :: rest => load_loop orig (i + 1) rest (store8 m (orig + i) b)
  end.

Definition load (orig : Z) (code : list Z) (s : cpu) : cpu :=
  set_ram (load_loop orig 0 code (ram s)) s.

Definition interrupt (vector : Z) (s : cpu) : cpu :=
  if interruptsEnabled s
  then set_interruptVector vector
         (set_interruptPending true (set_interruptsEnabled false s))
  else s.

(** [ram[PC++]] *)
Definition get8 (s : cpu) : Z * cpu :=
  (ram s (PC s), set_PC (wrap16 (PC s + 1)) s).

Definition get16 (s : cpu) : Z * cpu :=
  let copy := load16 (ram s) (PC s) in
  (copy, set_PC (wrap16 (PC s + 2)) s).

(** ** Arithmetic and logic *)

(** [updateFlags<byte>]: [(signed char)result < 0], [result == 0] and
    [not __builtin_parity(result)]. *)
Definition updateFlags (result : Z) (s : cpu) : cpu :=
  let s := setFlag sign ((if result <? 128 then result else result - 256) <? 0) s in
  let s := setFlag zero (result =? 0) s in
  setFlag parity (negb (truthy (builtin_parity result))) s.

Definition updateAuxCarryFlag (a b : Z) (s : cpu) : cpu :=
  setFlag auxCarry (lowBitsOf b 4 + lowBitsOf a 4 >? 15) s.

Definition inr (r8 : ref8) (s : cpu) : cpu :=
  let s := setFlag auxCarry (lowBitsOf (get_r8 r8 s) 4 =? 15) s in
  let s := set_r8 r8 (wrap8 (get_r8 r8 s + 1)) s in
  updateFlags (get_r8 r8 s) s.

Definition dcr (r8 : ref8) (s : cpu) : cpu :=
  let s := setFlag auxCarry (lowBitsOf (get_r8 r8 s) 4 =? 0) s in
  let s := set_r8 r8 (wrap8 (get_r8 r8 s - 1)) s in
  updateFlags (get_r8 r8 s) s.

Definition dad (r16 : ref16) (s : cpu) : cpu :=
  let s := setFlag carry (get_r16 r16 s >? 65535 - HL s) s in
  set_r16 rHL (wrap16 (HL s + get_r16 r16 s)) s.

Definition add (r8 : Z) (withCarry : bool) (s : cpu) : cpu :=
  let added :=
    if withCarry && truthy (getFlag carry s) then wrap8 (r8 + 1) else r8 in
  let s := setFlag carry (added >? 255 - A s) s in
  let s := updateAuxCarryFlag (A s) added s in
  let s := set_r8 rA (wrap8 (A s + added)) s in
  updateFlags (A s) s.

Definition sub (r8 : Z) (withBorrow : bool) (s : cpu) : cpu :=
  let added :=
    if withBorrow && truthy (getFlag carry s) then wrap8 (r8 + 1) else r8 in
  let s := setFlag carry (added >? A s) s in
  let s := set_r8 rA (wrap8 (A s - added)) s in
  updateFlags (A s) s.

Definition cmp (r8 : Z) (s : cpu) : cpu :=
  let copyA := A s in
  let s := sub r8 false s in
  set_r8 rA copyA s.

Definition logicAnd (r8 : Z) (s : cpu) : cpu :=
  let s := set_r8 rA (wrap8 (Z.land (A s) r8)) s in
  let s := updateFlags (A s) s in
  setFlag carry false s.

Definition logicOr (r8 : Z) (s : cpu) : cpu :=
  let s := set_r8 rA (wrap8 (Z.lor (A s) r8)) s in
  let s := updateFlags (A s) s in
  setFlag carry false s.

Definition logicXor (r8 : Z) (s : cpu) : cpu :=
  let s := set_r8 rA (wrap8 (Z.lxor (A s) r8)) s in
  let s := updateFlags (A s) s in
  setFlag carry false s.

(** ** Stack and control transfer *)

Definition push (r16 : Z) (s : cpu) : cpu :=
  let s := set_SP (wrap16 (SP s - 2)) s in
  set_atSP r16 s.

Definition pop (r16 : ref16) (s : cpu) : cpu :=
  let s := set_r16 r16 (atSP s) s in
  let s := set_SP (wrap16 (SP s + 2)) s in
  (* Reset unused flags *)
  let s := setFlag 5 false s in
  let s := setFlag 3 false s in
  setFlag 1 true s.

Definition rst (rstNum : Z) (s : cpu) : cpu :=
  let s := push (PC s) s in
  set_PC (8 * rstNum) s.

Definition jmp (condition : bool) (s : cpu) : cpu :=
  let '(adr, s) := get16 s in
  if condition then set_PC adr s else s.

Definition ret (condition : bool) (s : cpu) : cpu :=
  if condition then pop rPC s else s.

Definition call (condition : bool) (s : cpu) : cpu :=
  let '(adr, s) := get16 s in
  if condition then set_PC adr (push (PC s) s) else s.

(** ** Instruction dispatch

    [instr] is a byte.  The [switch] of the source has no [default]: a value
    that no [case] lists leaves the state as it is. *)
Definition exec (instr : Z) (s : cpu) : cpu :=
  match instr with
  (* NOP, incl. undocumented *)
  | 0x00 | 0x08 | 0x10 | 0x18 | 0x20 | 0x28 | 0x30 | 0x38 => s
  (* LXI r16, d16 *)
  | 0x01 => let '(v, s1) := get16 s in set_r16 rBC v s1
  | 0x11 => let '(v, s1) := get16 s in set_r16 rDE v s1
  | 0x21 => let '(v, s1) := get16 s in set_r16 rHL v s1
  | 0x31 => let '(v, s1) := get16 s in set_r16 rSP v s1
  (* STAX r16 *)
  | 0x02 => set_ram (store8 (ram s) (BC s) (A s)) s
  | 0x12 => set_ram (store8 (ram s) (DE s) (A s)) s
  (* LDAX r16 *)
  | 0x0a => set_r8 rA (ram s (BC s)) s
  | 0x1a => set_r8 rA (ram s (DE s)) s
  (* SHLD a16 *)
  | 0x22 => let '(adr, s1) := get16 s in set_ram (store16 (ram s1) adr (HL s1)) s1
  (* LHLD a16 *)
  | 0x2a => let '(adr, s1) := get16 s in set_r16 rHL (load16 (ram s1) adr) s1
  (* STA a16 *)
  | 0x32 => let '(adr, s1) := get16 s in set_ram (store8 (ram s1) adr (A s1)) s1
  (* LDA a16 *)
  | 0x3a => let '(adr, s1) := get16 s in set_r8 rA (ram s1 adr) s1
  (* INX r16 *)
  | 0x03 => set_r16 rBC (wrap16 (get_r16 rBC s + 1)) s
  | 0x13 => set_r16 rDE (wrap16 (get_r16 rDE s + 1)) s
  | 0x23 => set_r16 rHL (wrap16 (get_r16 rHL s + 1)) s
  | 0x33 => set_r16 rSP (wrap16 (get_r16 rSP s + 1)) s
  (* DCX r16 *)
  | 0x0b => set_r16 rBC (wrap16 (get_r16 rBC s - 1)) s
  | 0x1b => set_r16 rDE (wrap16 (get_r16 rDE s - 1)) s
  | 0x2b => set_r16 rHL (wrap16 (get_r16 rHL s - 1)) s
  | 0x3b => set_r16 rSP (wrap16 (get_r16 rSP s - 1)) s
  (* INR r8 *)
  | 0x04 => inr rB s
  | 0x0c => inr rC s
  | 0x14 => inr rD s
  | 0x1c => inr rE s
  | 0x24 => inr rH s
  | 0x2c => inr rL s
  | 0x34 => inr rAtHL s
  | 0x3c => inr rA s
  (* DCR r8 *)
  | 0x05 => dcr rB s
  | 0x0d => dcr rC s
  | 0x15 => dcr rD s
  | 0x1d => dcr rE s
  | 0x25 => dcr rH s
  | 0x2d => dcr rL s
  | 0x35 => dcr rAtHL s
  | 0x3d => dcr rA s
  (* MVI r8 *)
  | 0x06 => let '(v, s1) := get8 s in set_r8 rB v s1
  | 0x0e => let '(v, s1) := get8 s in set_r8 rC v s1
  | 0x16 => let '(v, s1) := get8 s in set_r8 rD v s1
  | 0x1e => let '(v, s1) := get8 s in set_r8 rE v s1
  | 0x26 => let '(v, s1) := get8 s in set_r8 rH v s1
  | 0x2e => let '(v, s1) := get8 s in set_r8 rL v s1
  | 0x36 => let '(v, s1) := get8 s in set_r8 rAtHL v s1
  | 0x3e => let '(v, s1) := get8 s in set_r8 rA v s1
  (* RLC *)
  | 0x07 =>
      let temp := wrap16 (highBitsOf (A s) 1) in
      let s := setFlag carry (truthy temp) s in
      let s := set_r8 rA (wrap8 (Z.shiftl (A s) 1)) s in
      set_r8 rA (wrap8 (A s + wrap8 temp)) s
  (* RRC *)
  | 0x0f =>
      let temp := wrap16 (lowBitsOf (A s) 1) in
      let s := setFlag carry (truthy temp) s in
      let s := set_r8 rA (wrap8 (Z.shiftr (A s) 1)) s in
      set_r8 rA (wrap8 (A s + Z.shiftl 1 7 * wrap8 temp)) s
  (* RAL *)
  | 0x17 =>
      let s := setFlag carry (truthy (highBitsOf (A s) 1)) s in
      set_r8 rA (wrap8 (Z.shiftl (A s) 1)) s
  (* RAR *)
  | 0x1f =>
      let s := setFlag carry (truthy (lowBitsOf (A s) 1)) s in
      set_r8 rA (wrap8 (Z.shiftr (A s) 1)) s
  (* DAA *)
  | 0x27 =>
      let s :=
        if truthy (getFlag auxCarry s) || (lowBitsOf (A s) 4 >? 9)
        then setFlag auxCarry true (set_r8 rA (wrap8 (A s + 6)) s)
        else s in
      let s :=
        if truthy (getFlag carry s) || (highBitsOf (A s) 4 >? 9)
        then setFlag carry true (set_r8 rA (wrap8 (A s + Z.shiftl 6 4)) s)
        else s in
      updateFlags (A s) s
  (* STC *)
  | 0x37 => setFlag carry true s
  (* CMA *)
  | 0x2f => set_r8 rA (wrap8 (Z.lnot (A s))) s
  (* CMC *)
  | 0x3f => setFlag carry (negb (truthy (getFlag carry s))) s
  (* DAD r16 *)
  | 0x09 => dad rBC s
  | 0x19 => dad rDE s
  | 0x29 => dad rHL s
  | 0x39 => dad rSP s
  (* MOV r8, r8 *)
  | 0x40 => set_r8 rB (get_r8 rB s) s
  | 0x41 => set_r8 rB (get_r8 rC s) s
  | 0x42 => set_r8 rB (get_r8 rD s) s
  | 0x43 => set_r8 rB (get_r8 rE s) s
  | 0x44 => set_r8 rB (get_r8 rH s) s
  | 0x45 => set_r8 rB (get_r8 rL s) s
  | 0x46 => set_r8 rB (get_r8 rAtHL s) s
  | 0x47 => set_r8 rB (get_r8 rA s) s
  | 0x48 => set_r8 rC (get_r8 rB s) s
  | 0x49 => set_r8 rC (get_r8 rC s) s
  | 0x4a => set_r8 rC (get_r8 rD s) s
  | 0x4b => set_r8 rC (get_r8 rE s) s
  | 0x4c => set_r8 rC (get_r8 rH s) s
  | 0x4d => set_r8 rC (get_r8 rL s) s
  | 0x4e => set_r8 rC (get_r8 rAtHL s) s
  | 0x4f => set_r8 rC (get_r8 rA s) s
  | 0x50 => set_r8 rD (get_r8 rB s) s
  | 0x51 => set_r8 rD (get_r8 rC s) s
  | 0x52 => set_r8 rD (get_r8 rD s) s
  | 0x53 => set_r8 rD (get_r8 rE s) s
  | 0x54 => set_r8 rD (get_r8 rH s) s
  | 0x55 => set_r8 rD (get_r8 rL s) s
  | 0x56 => set_r8 rD (get_r8 rAtHL s) s
  | 0x57 => set_r8 rD (get_r8 rA s) s
  | 0x58 => set_r8 rE (get_r8 rB s) s
  | 0x59 => set_r8 rE (get_r8 rC s) s
  | 0x5a => set_r8 rE (get_r8 rD s) s
  | 0x5b => set_r8 rE (get_r8 rE s) s
  | 0x5c => set_r8 rE (get_r8 rH s) s
  | 0x5d => set_r8 rE (get_r8 rL s) s
  | 0x5e => set_r8 rE (get_r8 rAtHL s) s
  | 0x5f => set_r8 rE (get_r8 rA s) s
  | 0x60 => set_r8 rH (get_r8 rB s) s
  | 0x61 => set_r8 rH (get_r8 rC s) s
  | 0x62 => set_r8 rH (get_r8 rD s) s
  | 0x63 => set_r8 rH (get_r8 rE s) s
  | 0x64 => set_r8 rH (get_r8 rH s) s
  | 0x65 => set_r8 rH (get_r8 rL s) s
  | 0x66 => set_r8 rH (get_r8 rAtHL s) s
  | 0x67 => set_r8 rH (get_r8 rA s) s
  | 0x68 => set_r8 rL (get_r8 rB s) s
  | 0x69 => set_r8 rL (get_r8 rC s) s
  | 0x6a => set_r8 rL (get_r8 rD s) s
  | 0x6b => set_r8 rL (get_r8 rE s) s
  | 0x6c => set_r8 rL (get_r8 rH s) s
  | 0x6d => set_r8 rL (get_r8 rL s) s
  | 0x6e => set_r8 rL (get_r8 rAtHL s) s
  | 0x6f => set_r8 rL (get_r8 rA s) s
  | 0x70 => set_r8 rAtHL (get_r8 rB s) s
  | 0x71 => set_r8 rAtHL (get_r8 rC s) s
  | 0x72 => set_r8 rAtHL (get_r8 rD s) s
  | 0x73 => set_r8 rAtHL (get_r8 rE s) s
  | 0x74 => set_r8 rAtHL (get_r8 rH s) s
  | 0x75 => set_r8 rAtHL (get_r8 rL s) s
  (* 0x76 is used for HLT *)
  | 0x77 => set_r8 rAtHL (get_r8 rA s) s
  | 0x78 => set_r8 rA (get_r8 rB s) s
  | 0x79 => set_r8 rA (get_r8 rC s) s
  | 0x7a => set_r8 rA (get_r8 rD s) s
  | 0x7b => set_r8 rA (get_r8 rE s) s
  | 0x7c => set_r8 rA (get_r8 rH s) s
  | 0x7d => set_r8 rA (get_r8 rL s) s
  | 0x7e => set_r8 rA (get_r8 rAtHL s) s
  | 0x7f => set_r8 rA (get_r8 rA s) s
  (* HLT *)
  | 0x76 => set_halted true s
  (* ADD r8 *)
  | 0x80 => add (get_r8 rB s) false s
  | 0x81 => add (get_r8 rC s) false s
  | 0x82 => add (get_r8 rD s) false s
  | 0x83 => add (get_r8 rE s) false s
  | 0x84 => add (get_r8 rH s) false s
  | 0x85 => add (get_r8 rL s) false s
  | 0x86 => add (get_r8 rAtHL s) false s
  | 0x87 => add (get_r8 rA s) false s
  (* ADC r8 *)
  | 0x88 => add (get_r8 rB s) true s
  | 0x89 => add (get_r8 rC s) true s
  | 0x8a => add (get_r8 rD s) true s
  | 0x8b => add (get_r8 rE s) true s
  | 0x8c => add (get_r8 rH s) true s
  | 0x8d => add (get_r8 rL s) true s
  | 0x8e => add (get_r8 rAtHL s) true s
  | 0x8f => add (get_r8 rA s) true s
  (* SUB r8 *)
  | 0x90 => sub (get_r8 rB s) false s
  | 0x91 => sub (get_r8 rC s) false s
  | 0x92 => sub (get_r8 rD s) false s
  | 0x93 => sub (get_r8 rE s) false s
  | 0x94 => sub (get_r8 rH s) false s
  | 0x95 => sub (get_r8 rL s) false s
  | 0x96 => sub (get_r8 rAtHL s) false s
  | 0x97 => sub (get_r8 rA s) false s
  (* SBB r8 *)
  | 0x98 => sub (get_r8 rB s) true s
  | 0x99 => sub (get_r8 rC s) true s
  | 0x9a => sub (get_r8 rD s) true s
  | 0x9b => sub (get_r8 rE s) true s
  | 0x9c => sub (get_r8 rH s) true s
  | 0x9d => sub (get_r8 rL s) true s
  | 0x9e => sub (get_r8 rAtHL s) true s
  | 0x9f => sub (get_r8 rA s) true s
  (* ANA r8 *)
  | 0xa0 => logicAnd (get_r8 rB s) s
  | 0xa1 => logicAnd (get_r8 rC s) s
  | 0xa2 => logicAnd (get_r8 rD s) s
  | 0xa3 => logicAnd (get_r8 rE s) s
  | 0xa4 => logicAnd (get_r8 rH s) s
  | 0xa5 => logicAnd (get_r8 rL s) s
  | 0xa6 => logicAnd (get_r8 rAtHL s) s
  | 0xa7 => logicAnd (get_r8 rA s) s
  (* XRA r8 *)
  | 0xa8 => logicXor (get_r8 rB s) s
  | 0xa9 => logicXor (get_r8 rC s) s
  | 0xaa => logicXor (get_r8 rD s) s
  | 0xab => logicXor (get_r8 rE s) s
  | 0xac => logicXor (get_r8 rH s) s
  | 0xad => logicXor (get_r8 rL s) s
  | 0xae => logicXor (get_r8 rAtHL s) s
  | 0xaf => logicXor (get_r8 rA s) s
  (* ORA r8 *)
  | 0xb0 => logicOr (get_r8 rB s) s
  | 0xb1 => logicOr (get_r8 rC s) s
  | 0xb2 => logicOr (get_r8 rD s) s
  | 0xb3 => logicOr (get_r8 rE s) s
  | 0xb4 => logicOr (get_r8 rH s) s
  | 0xb5 => logicOr (get_r8 rL s) s
  | 0xb6 => logicOr (get_r8 rAtHL s) s
  | 0xb7 => logicOr (get_r8 rA s) s
  (* CMP r8 *)
  | 0xb8 => cmp (get_r8 rB s) s
  | 0xb9 => cmp (get_r8 rC s) s
  | 0xba => cmp (get_r8 rD s) s
  | 0xbb => cmp (get_r8 rE s) s
  | 0xbc => cmp (get_r8 rH s) s
  | 0xbd => cmp (get_r8 rL s) s
  | 0xbe => cmp (get_r8 rAtHL s) s
  | 0xbf => cmp (get_r8 rA s) s
  (* ADI *)
  | 0xc6 => let '(v, s1) := get8 s in add v false s1
  (* ACI *)
  | 0xce => let '(v, s1) := get8 s in add v true s1
  (* SUI *)
  | 0xd6 => let '(v, s1) := get8 s in sub v false s1
  (* SBI *)
  | 0xde => let '(v, s1) := get8 s in sub v true s1
  (* ANI *)
  | 0xe6 => let '(v, s1) := get8 s in logicAnd v s1
  (* XRI *)
  | 0xee => let '(v, s1) := get8 s in logicXor v s1
  (* ORI *)
  | 0xf6 => let '(v, s1) := get8 s in logicOr v s1
  (* CPI *)
  | 0xfe => let '(v, s1) := get8 s in cmp v s1
  (* XCHG *)
  | 0xeb =>
      let temp := HL s in
      let s := set_r16 rHL (DE s) s in
      set_r16 rDE temp s
  (* XTHL *)
  | 0xe3 =>
      let temp := load16 (ram s) (SP s) in
      let s := set_ram (store16 (ram s) (SP s) (HL s)) s in
      set_r16 rHL temp s
  (* SPHL *)
  | 0xf9 => set_r16 rSP (HL s) s
  (* PCHL *)
  | 0xe9 => set_r16 rPC (HL s) s
  (* DI *)
  | 0xf3 => set_interruptsEnabled false s
  (* EI *)
  | 0xfb => set_interruptsEnabled true s
  (* PUSH r16 *)
  | 0xc5 => push (get_r16 rBC s) s
  | 0xd5 => push (get_r16 rDE s) s
  | 0xe5 => push (get_r16 rHL s) s
  | 0xf5 => push (get_r16 rPSW s) s
  (* POP r16 *)
  | 0xc1 => pop rBC s
  | 0xd1 => pop rDE s
  | 0xe1 => pop rHL s
  | 0xf1 => pop rPSW s
  (* IN p8 *)
  | 0xdb =>
      let '(port, s1) := get8 s in
      let '(v, d) := portInputHandler s1 port (dev s1) in
      set_r8 rA (wrap8 v) (set_dev d s1)
  (* OUT p8 *)
  | 0xd3 =>
      let '(port, s1) := get8 s in
      set_dev (portOutputHandler s1 port (A s1) (dev s1)) s1
  (* RST *)
  | 0xc7 => rst 0 s
  | 0xcf => rst 1 s
  | 0xd7 => rst 2 s
  | 0xdf => rst 3 s
  | 0xe7 => rst 4 s
  | 0xef => rst 5 s
  | 0xf7 => rst 6 s
  | 0xff => rst 7 s
  (* JNZ a16 *)
  | 0xc2 => jmp (negb (truthy (getFlag zero s))) s
  (* JMP a16 *)
  | 0xc3 => jmp true s
  (* JZ a16 *)
  | 0xca => jmp (truthy (getFlag zero s)) s
  (* JNC a16 *)
  | 0xd2 => jmp (negb (truthy (getFlag carry s))) s
  (* JC a16 *)
  | 0xda => jmp (truthy (getFlag carry s)) s
  (* JPO a16 *)
  | 0xe2 => jmp (negb (truthy (getFlag parity s))) s
  (* JPE a16 *)
  | 0xea => jmp (truthy (getFlag parity s)) s
  (* JP a16 *)
  | 0xf2 => jmp (negb (truthy (getFlag sign s))) s
  (* JM a16 *)
  | 0xfa => jmp (truthy (getFlag sign s)) s
  (* RET, incl. undocumented *)
  | 0xc9 | 0xd9 => ret true s
  (* RNZ *)
  | 0xc0 => ret (negb (truthy (getFlag zero s))) s
  (* RZ *)
  | 0xc8 => ret (truthy (getFlag zero s)) s
  (* RNC *)
  | 0xd0 => ret (negb (truthy (getFlag carry s))) s
  (* RC *)
  | 0xd8 => ret (truthy (getFlag carry s)) s
  (* RPO *)
  | 0xe0 => ret (negb (truthy (getFlag parity s))) s
  (* RPE *)
  | 0xe8 => ret (truthy (getFlag parity s)) s
  (* RP *)
  | 0xf0 => ret (negb (truthy (getFlag sign s))) s
  (* RM *)
  | 0xf8 => ret (truthy (getFlag sign s)) s
  (* CALL, incl. undocumented *)
  | 0xcd | 0xdd | 0xed | 0xfd => call true s
  (* CNZ *)
  | 0xc4 => call (negb (truthy (getFlag zero s))) s
  (* CZ *)
  | 0xcc => call (truthy (getFlag zero s)) s
  (* CNC *)
  | 0xd4 => call (negb (truthy (getFlag carry s))) s
  (* CC *)
  | 0xdc => call (truthy (getFlag carry s)) s
  (* CPO *)
  | 0xe4 => call (negb (truthy (getFlag parity s))) s
  (* CPE *)
  | 0xec => call (truthy (getFlag parity s)) s
  (* CP *)
  | 0xf4 => call (negb (truthy (getFlag sign s))) s
  (* CM *)
  | 0xfc => call (truthy (getFlag sign s)) s
  (* All cases should be covered; no `default` is necessary. *)
  | _ => s
  end.

Definition step (s : cpu) : cpu :=
  if interruptsEnabled s && interruptPending s
  then
    let s := exec (interruptVector s) s in
    let s := set_interruptPending false s in
    set_halted false s
  else if negb (halted s)
  then let '(instr, s) := get8 s in exec instr s
  else s.

End Processor.

(** ** The Intel HEX loader *)

Definition asciiToHex (c : ascii) : Z :=
  let n := Z.of_N (N_of_ascii c) in
  if (48 <=? n) && (n <=? 57) then n - 48
  else if (65 <=? n) && (n <=? 70) then (n - 65) + 10
  else 0.

(** [std::map<bytePair, std::vector<byte>>]: an association list kept in
    increasing order of its keys, which is the order in which the map is
    traversed.  [records_push adr val] is [records[adr].push_back(val)]. *)
Fixpoint records_push (adr val : Z) (records : list (Z * list Z))
  : list (Z * list Z) :=
  match records with
  | [] => [(adr, [val])]
  | (k, v) :: rest =>
      if adr <? k then (adr, [val]) :: records
      else if adr =? k then (k, v ++ [val]) :: rest
      else (k, v) :: records_push adr val rest
  end.

(** The local variables of [loadIntelHexFile] that the loops update. *)
Record hexState : Type := mkHex {
  val : Z;
  byteCount : Z;
  adr : Z;
  recordType : Z;
  records : list (Z * list Z)
}.

(** Body of the inner loop, for the character [c] at [colonPos + i]. *)
Definition record_char (c : ascii) (i : Z) (st : hexState) : hexState :=
  let byteNum := (i - 1) / 2 in
  if (i - 1) mod 2 =? 0
  then mkHex (16 * asciiToHex c) (byteCount st) (adr st) (recordType st)
             (records st)
  else
    let v := val st + asciiToHex c in
    match byteNum with
    | 0 => mkHex v (wrap8 v) (adr st) (recordType st) (records st)
    | 1 => mkHex v (byteCount st) (wrap16 (v * 256)) (recordType st) (records st)
    | 2 => mkHex v (byteCount st) (wrap16 (adr st + v)) (recordType st) (records st)
    | 3 => mkHex v (byteCount st) (adr st) (wrap8 v) (records st)
    | _ =>
        if byteNum - 4 <=? byteCount st
        then mkHex v (byteCount st) (adr st) (recordType st)
                   (records_push (adr st) (wrap8 v) (records st))
        else mkHex v (byteCount st) (adr st) (recordType st) (records st)
    end.

(** The inner loop: [rest] holds the characters of [contents] from position
    [colonPos + i] on; the loop ends at the end of the file or at the next
    colon, whichever comes first. *)
Fixpoint record_loop (rest : string) (i : Z) (st : hexState) : hexState :=
  match rest with
  | EmptyString => st
  | String c rest' =>
      if Ascii.eqb c ":"%char then st
      else record_loop rest' (i + 1) (record_char c i st)
  end.

(** The characters of [contents] from position [n] on. *)
Definition contents_from (n : nat) (contents : string) : string :=
  substring n (String.length contents - n) contents.

(** The outer loop, from the record that starts at [colonPos]; the next
    record is found with [contents.find(':', colonPos + 1)].  [None] when
    the loop has not ended within [fuel] iterations. *)
Fixpoint records_loop (fuel : nat) (contents : string) (colonPos : nat)
    (st : hexState) : option hexState :=
  match fuel with
  | O => None
  | S fuel' =>
      let st' := record_loop (contents_from (colonPos + 1) contents) 1 st in
      match index (colonPos + 1) ":" contents with
      | None => Some st'
      | Some next => records_loop fuel' contents next st'
      end
  end.

(** Write the records to memory. *)
Fixpoint write_record (first i : Z) (second : list Z) (m : memory) : memory :=
  match second with
  | [] => m
  | b :: rest => write_record first (i + 1) rest (store8 m (first + i) b)
  end.

Fixpoint write_records (records : list (Z * list Z)) (m : memory) : memory :=
  match records with
  | [] => m
  | (first, second) :: rest => write_records rest (write_record first 0 second m)
  end.

(** [loadIntelHexFile]: [file] is the text of the file named [filename], or
    [None] when that file cannot be opened.  Each iteration of the outer loop
    moves [colonPos] forward, so [S (length contents)] iterations are enough
    (see [records_loop_terminates]). *)
Definition loadIntelHexFile (file : option string) (m : memory)
  : option (bool * memory) :=
  match file with
  | None => Some (false, m)
  | Some contents =>
      match records_loop (S (String.length contents)) contents 0
                         (mkHex 0 0 0 0 []) with
      | None => None
      | Some st => Some (true, write_records (records st) m)
      end
  end.

(** ** Vocabulary of the statements *)

Definition byte_ok (x : Z) : Prop := 0 <= x < 256.
Definition word_ok (x : Z) : Prop := 0 <= x < 65536.

(** Every 8-bit register holds a byte. *)
Definition regs_ok {Dev : Type} (s : @cpu Dev) : Prop :=
  byte_ok (A s) /\ byte_ok (flags s) /\ byte_ok (B s) /\ byte_ok (C s) /\
  byte_ok (D s) /\ byte_ok (E s) /\ byte_ok (H s) /\ byte_ok (L s).

(** A flags byte with bits 1, 3, 5 forced to 1, 0, 0 ([0xD7] has every bit
    but 3 and 5). *)
Definition forced_flags (f : Z) : Z := Z.lor (Z.land f 0xD7) 0x02.

(** The carry or borrow that [add] and [sub] take in: the Carry flag when
    the operation is ADC/ACI or SBB/SBI, and 0 otherwise. *)
Definition carry_in {Dev : Type} (withCarry : bool) (s : @cpu Dev) : Z :=
  if withCarry && truthy (getFlag carry s) then 1 else 0.

(** A legal flag position. *)
Definition flag_pos (f : Z) : bool := (0 <=? f) && (f <? 8).

(** The fixed-bit invariant of the flags register: bit 1 is 1, bits 3 and 5
    are 0. *)
Definition fixed_bits (f : Z) : Prop :=
  Z.testbit f 1 = true /\ Z.testbit f 3 = false /\ Z.testbit f 5 = false.

(** [forall_below n f]: [f] holds of every integer of [0 .. n-1]; used to
    settle a property of a byte by running through the 256 bytes. *)
Fixpoint forall_below (n : nat) (f : Z -> bool) : bool :=
  match n with
  | O => true
  | S n' => f (Z.of_nat n') && forall_below n' f
  end.

(** The conditional jumps and calls: opcode, flag tested, and the value of
    the flag for which the transfer is taken (JNZ, JZ, JNC, JC, JPO, JPE, JP,
    JM, then CNZ ... CM). *)
Definition conditional_transfers : list (Z * Z * Z) :=
  [ (0xc2, zero, 0); (0xca, zero, 1); (0xd2, carry, 0); (0xda, carry, 1);
    (0xe2, parity, 0); (0xea, parity, 1); (0xf2, sign, 0); (0xfa, sign, 1);
    (0xc4, zero, 0); (0xcc, zero, 1); (0xd4, carry, 0); (0xdc, carry, 1);
    (0xe4, parity, 0); (0xec, parity, 1); (0xf4, sign, 0); (0xfc, sign, 1) ].

(** [n] calls of [step]. *)
Fixpoint steps {Dev : Type} (n : nat) (s : @cpu Dev) : cpu :=
  match n with
  | O => s
  | S n' => steps n' (step s)
  end.

(** ** Sample machines, used to evaluate the definitions *)

Definition zero_ram : memory := fun _ => 0.
Definition no_input : Z -> unit -> Z * unit := fun _ d => (0, d).
Definition no_output : Z -> Z -> unit -> unit := fun _ _ d => d.

(** A freshly constructed processor over zeroed memory, with the stack
    pointer and the program counter moved away from zero. *)
Definition sample_cpu : @cpu unit :=
  set_PC 0x100 (set_SP 0x2000 (cpu_new no_input no_output zero_ram tt)).

(** The accumulator holds 0x80 (bit 7 set, every other bit clear). *)
Definition cpu_A80 : @cpu unit := set_r8 rA 0x80 sample_cpu.

(** The accumulator holds 0x10 and the Carry flag is set. *)
Definition cpu_carry_in : @cpu unit :=
  setFlag carry true (set_r8 rA 0x10 sample_cpu).

(** Interrupts are enabled; the memory is zeroed, so the byte at the program
    counter is a NOP. *)
Definition cpu_irq_on : @cpu unit := set_interruptsEnabled true sample_cpu.

(** The byte at the program counter is [op]. *)
Definition cpu_fetching (op : Z) (s : @cpu unit) : @cpu unit :=
  set_ram (store8 (ram s) (PC s) op) s.

(** Every register holds a different byte; the flags byte has all its bits
    set. *)
Definition cpu_regs : @cpu unit :=
  set_PSW (mkPair 0xff 0x12)
    (set_BC (mkPair 0x34 0x56)
       (set_DE (mkPair 0x78 0x9a) (set_HL (mkPair 0xbc 0xde) sample_cpu))).

(** The text of the hex-load scenario: a record of three data bytes at
    address 0 and an end-of-file record, each followed by a line feed. *)
Definition hex_scenario : string :=
  (":0300000002030405" ++ String "010" (":00000001FF" ++ String "010" ""))%string.

(** ** Vocabulary of the further properties *)

(** The accumulator holds a packed decimal number: both nibbles are at most
    9. *)
Definition bcd_ok (a : Z) : Prop := a mod 16 <= 9 /\ a / 16 <= 9.

(** The three bitwise operations of the processor, each with the operation
    on integers that it applies to the accumulator. *)
Definition logic_ops {Dev : Type}
  : list ((Z -> @cpu Dev -> @cpu Dev) * (Z -> Z -> Z)) :=
  [ (logicAnd, Z.land); (logicOr, Z.lor); (logicXor, Z.lxor) ].

(** CALL and RET with their undocumented duplicates, and the eight RST
    opcodes, each with its number. *)
Definition call_opcodes : list Z := [0xcd; 0xdd; 0xed; 0xfd].
Definition ret_opcodes : list Z := [0xc9; 0xd9].
Definition rst_opcodes : list (Z * Z) :=
  [ (0xc7, 0); (0xcf, 1); (0xd7, 2); (0xdf, 3);
    (0xe7, 4); (0xef, 5); (0xf7, 6); (0xff, 7) ].

(** The conditional jumps and the conditional calls, taken apart. *)
Definition conditional_jumps : list (Z * Z * Z) := firstn 8 conditional_transfers.
Definition conditional_calls : list (Z * Z * Z) := skipn 8 conditional_transfers.

(** The conditional returns: opcode, flag tested, and the value of the flag
    for which the return is taken (RNZ, RZ, RNC, RC, RPO, RPE, RP, RM). *)
Definition conditional_returns : list (Z * Z * Z) :=
  [ (0xc0, zero, 0); (0xc8, zero, 1); (0xd0, carry, 0); (0xd8, carry, 1);
    (0xe0, parity, 0); (0xe8, parity, 1); (0xf0, sign, 0); (0xf8, sign, 1) ].

(** The byte that a run of bytes written from address [first] on leaves at
    address [a], if the run reaches [a]. *)
Definition run_at (first : Z) (run : list Z) (a : Z) : option Z :=
  if (first <=? a) && (a <? first + Z.of_nat (List.length run))
  then Some (nth (Z.to_nat (a - first)) run 0)
  else None.

(** The character that stands for the hexadecimal digit [n]. *)
Definition hex_digit (n : Z) : ascii :=
  nth (Z.to_nat n) (list_ascii_of_string "0123456789ABCDEF") "0"%char.

(** Every element of the list is a hexadecimal digit, 0 to 15. *)
Definition digits_ok (ds : list Z) : Prop := Forall (fun d => 0 <= d < 16) ds.

(** The byte that writing the runs of [records], in their order, leaves at
    address [a]: that of the last run that reaches [a], if there is one. *)
Fixpoint written_at (records : list (Z * list Z)) (a : Z) : option Z :=
  match records with
  | [] => None
  | (first, run) :: rest =>
      match written_at rest a with
      | Some b => Some b
      | None => run_at first run a
      end
  end.

(** The run that [records] holds for the key [adr], empty if the key is
    absent. *)
Fixpoint records_find (adr : Z) (records : list (Z * list Z)) : list Z :=
  match records with
  | [] => []
  | (k, v) :: rest => if adr =? k then v else records_find adr rest
  end.

(** The keys come in strictly increasing order. *)
Fixpoint keys_increasing (records : list (Z * list Z)) : Prop :=
  match records with
  | [] => True
  | (k, _) :: rest =>
      match rest with
      | [] => True
      | (k', _) :: _ => k < k'
      end /\ keys_increasing rest
  end.

(** The part of the state that governs halting and interrupts. *)
Definition control {Dev : Type} (s : @cpu Dev) : bool * bool * bool * Z :=
  (halted s, interruptsEnabled s, interruptPending s, interruptVector s).

(** Bits 1, 3 and 5 of the flags register. *)
Definition fixed3 {Dev : Type} (s : @cpu Dev) : bool * bool * bool :=
  (Z.testbit (flags s) 1, Z.testbit (flags s) 3, Z.testbit (flags s) 5).

(** What the host can do to a processor between two instructions: step
    it, raise an interrupt, or load code into its memory. *)
Inductive host_action : Type :=
| DoStep
| DoInterrupt (vector : Z)
| DoLoad (orig : Z) (code : list Z).

Definition run_action {Dev : Type} (a : host_action) (s : @cpu Dev) : cpu :=
  match a with
  | DoStep => step s
  | DoInterrupt vector => interrupt vector s
  | DoLoad orig code => load orig code s
  end.

Fixpoint run {Dev : Type} (actions : list host_action) (s : @cpu Dev) : cpu :=
  match actions with
  | [] => s
  | a :: rest => run rest (run_action a s)
  end.

(** Every register holds a value of its width and every memory cell a
    byte. *)
Definition cpu_ok {Dev : Type} (s : @cpu Dev) : Prop :=
  regs_ok s /\ word_ok (SP s) /\ word_ok (PC s) /\ (forall a, byte_ok (ram s a)).

(** The code that a load copies consists of bytes. *)
Definition action_ok (a : host_action) : Prop :=
  match a with
  | DoLoad _ code => Forall byte_ok code
  | _ => True
  end.

(** INX and DCX: the opcode that increments a pair, the opcode that
    decrements it, and the pair. *)
Definition inx_dcx : list (Z * Z * ref16) :=
  [ (0x03, 0x0b, rBC); (0x13, 0x1b, rDE); (0x23, 0x2b, rHL);
    (0x33, 0x3b, rSP) ].

(** ** Further sample machines *)

(** The Zero flag is set. *)
Definition cpu_zero_set : @cpu unit := setFlag zero true sample_cpu.

(** An interrupt has been latched while interrupts were enabled. *)
Definition cpu_latched : @cpu unit := interrupt 0xc7 cpu_irq_on.

(** The accumulator holds the packed decimal number 42. *)
Definition cpu_bcd : @cpu unit := set_r8 rA 0x42 sample_cpu.

(** Two runs, at addresses 3 and 5. *)
Definition sample_runs : list (Z * list Z) := [ (3, [1]); (5, [2]) ].

(** * Properties *)

Section Properties.

Context {Dev : Type}.
Implicit Types s : @cpu Dev.

(** ** The dispatch *)

(** C10: opcode 0xCB is listed by no case of the dispatch: executing it
    changes nothing, and a step that fetches it only moves the program
    counter to the next byte. *)
Theorem exec_0xCB_is_nop :
  (forall s, exec 0xcb s = s) /\
  (forall s,
      interruptsEnabled s && interruptPending s = false ->
      halted s = false ->
      ram s (PC s) = 0xcb ->
      step s = set_PC (wrap16 (PC s + 1)) s).
Proof.
  split.
  - intros s. reflexivity.
  - intros s Hirq Hrun Hop. unfold step.
    rewrite Hirq, Hrun. cbn [negb get8]. rewrite Hop. reflexivity.
Qed.

(** ** Halting *)

Lemma step_halted_idle s :
  interruptsEnabled s && interruptPending s = false ->
  halted s = true ->
  step s = s.
Proof.
  intros Hirq Hh. unfold step. rewrite Hirq, Hh. reflexivity.
Qed.

Lemma steps_halted_idle s n :
  interruptsEnabled s && interruptPending s = false ->
  halted s = true ->
  steps n s = s.
Proof.
  intros Hirq Hh.
  induction n as [|n IH]; cbn [steps].
  - reflexivity.
  - rewrite step_halted_idle by assumption. exact IH.
Qed.

(** C9: once HLT has been executed, any number of further calls of [step]
    leaves the whole state (program counter, registers, flags, memory) as it
    is, provided no interrupt is both enabled and pending.  The first part is
    about [exec] of the opcode, the second about the [step] that fetches it. *)
Theorem hlt_then_steps_change_nothing :
  forall s n,
    interruptsEnabled s && interruptPending s = false ->
    steps n (exec 0x76 s) = exec 0x76 s /\
    (halted s = false -> ram s (PC s) = 0x76 ->
     halted (step s) = true /\ steps n (step s) = step s).
Proof.
  intros s n Hirq. split.
  - apply steps_halted_idle; [exact Hirq | reflexivity].
  - intros Hrun Hop.
    assert (Hstep : step s = set_halted true (set_PC (wrap16 (PC s + 1)) s)).
    { unfold step. rewrite Hirq, Hrun. cbn [negb get8]. rewrite Hop.
      reflexivity. }
    rewrite Hstep. split; [reflexivity|].
    apply steps_halted_idle; [exact Hirq | reflexivity].
Qed.

(** ** Conditional transfers *)

Lemma getFlag_bit f s : getFlag f s = 0 \/ getFlag f s = 1.
Proof.
  unfold getFlag.
  pose proof (Z.mod_pos_bound (Z.shiftr (flags s) f) 2 eq_refl). lia.
Qed.

Lemma jmp_not_taken s : jmp false s = set_PC (wrap16 (PC s + 2)) s.
Proof. reflexivity. Qed.

Lemma call_not_taken s : call false s = set_PC (wrap16 (PC s + 2)) s.
Proof. reflexivity. Qed.

Lemma untaken_exec op f t s :
  In (op, f, t) conditional_transfers ->
  getFlag f s <> t ->
  exec op s = set_PC (wrap16 (PC s + 2)) s.
Proof.
  intros Hin Hflag.
  unfold conditional_transfers in Hin. cbn [In] in Hin.
  destruct (getFlag_bit f s) as [Hf | Hf];
    repeat (destruct Hin as [Hin | Hin];
            [ injection Hin as <- <- <-;
              unfold exec;
              try (exfalso; apply Hflag; exact Hf);
              rewrite Hf; reflexivity
            | ]);
    contradiction.
Qed.

(** C8: a conditional jump or call whose condition does not hold reads its
    two operand bytes and changes nothing but the program counter, which
    ends after the operand: two bytes further for [exec], three bytes further
    for the [step] that fetches the opcode. *)
Theorem untaken_transfer_only_advances_PC :
  forall op f t s,
    In (op, f, t) conditional_transfers ->
    getFlag f s <> t ->
    exec op s = set_PC (wrap16 (PC s + 2)) s /\
    (interruptsEnabled s && interruptPending s = false ->
     halted s = false ->
     ram s (PC s) = op ->
     step s = set_PC (wrap16 (wrap16 (PC s + 1) + 2)) s).
Proof.
  intros op f t s Hin Hflag. split.
  - now apply untaken_exec with (f := f) (t := t).
  - intros Hirq Hrun Hop. unfold step. rewrite Hirq, Hrun.
    cbn [negb get8]. rewrite Hop.
    rewrite (untaken_exec op f t); [reflexivity | exact Hin | exact Hflag].
Qed.

(** ** Bytes and words *)

Lemma forall_below_spec n f :
  forall_below n f = true ->
  forall x, 0 <= x < Z.of_nat n -> f x = true.
Proof.
  induction n as [|n IH]; intros Hall x Hx.
  - cbn in Hx. lia.
  - cbn [forall_below] in Hall. apply andb_true_iff in Hall as [Hn Hrest].
    destruct (Z.eq_dec x (Z.of_nat n)) as [-> | Hne].
    + exact Hn.
    + apply IH; [exact Hrest | lia].
Qed.

Lemma forall_byte (f : Z -> bool) :
  forall_below 256 f = true -> forall x, byte_ok x -> f x = true.
Proof.
  intros Hall x Hx. apply (forall_below_spec 256 f Hall). exact Hx.
Qed.

Lemma wrap8_testbit x i : 0 <= i < 8 -> Z.testbit (wrap8 x) i = Z.testbit x i.
Proof.
  intros Hi. unfold wrap8. change 256 with (2 ^ 8).
  apply Z.mod_pow2_bits_low. lia.
Qed.

Lemma full_of_full v : word_ok v -> full (of_full v) = v.
Proof.
  unfold word_ok, full, of_full. cbn [low high]. intros Hv.
  rewrite (Z.mod_small (v / 256) 256).
  - pose proof (Z.div_mod v 256). lia.
  - split; [apply Z.div_pos; lia | apply Z.div_lt_upper_bound; lia].
Qed.

Lemma full_word_ok p : byte_ok (low p) -> byte_ok (high p) -> word_ok (full p).
Proof. unfold byte_ok, word_ok, full. lia. Qed.

Lemma of_full_full p : byte_ok (low p) -> byte_ok (high p) -> of_full (full p) = p.
Proof.
  destruct p as [lo hi]. unfold byte_ok, full, of_full. cbn [low high].
  intros Hlo Hhi. f_equal; Z.div_mod_to_equations; lia.
Qed.

Lemma load16_store16 m a v : word_ok v -> load16 (store16 m a v) a = v.
Proof.
  intros Hv. unfold load16, store16, store8.
  rewrite !Z.eqb_refl.
  replace (a =? a + 1) with false by (symmetry; apply Z.eqb_neq; lia).
  exact (full_of_full v Hv).
Qed.

(** ** The stack *)

Lemma pop_flags_shape r s :
  exists f0,
    flags (pop r s) =
    wrap8 (Z.lor (wrap8 (Z.land (wrap8 (Z.land f0 (Z.lnot 32))) (Z.lnot 8))) 2).
Proof.
  exists (flags (set_SP (wrap16 (SP (set_r16 r (atSP s) s) + 2))
                        (set_r16 r (atSP s) s))).
  reflexivity.
Qed.

Lemma forced_chain_fixed f0 :
  fixed_bits
    (wrap8 (Z.lor (wrap8 (Z.land (wrap8 (Z.land f0 (Z.lnot 32))) (Z.lnot 8))) 2)).
Proof.
  unfold fixed_bits.
  repeat split;
    repeat (first [ rewrite wrap8_testbit by lia
                  | rewrite Z.lor_spec
                  | rewrite Z.land_spec ]);
    cbn [Z.testbit Z.lnot Z.pred Z.opp Z.add Pos.testbit Z.pos_sub
         Pos.succ Pos.pred_double Pos.pred_N N.testbit];
    rewrite ?andb_false_r, ?orb_true_r, ?orb_false_r; reflexivity.
Qed.

(** C7: every pop, whatever pair it assigns (BC, DE, HL or PSW, and also
    the program counter on a return), ends by forcing bits 1, 3, 5 of the
    flags register itself to 1, 0, 0; the flags register satisfies the
    fixed-bit invariant after any pop. *)
Theorem pop_forces_fixed_bits :
  (forall r s, fixed_bits (flags (pop r s))) /\
  (forall s,
      exec 0xc1 s = pop rBC s /\ exec 0xd1 s = pop rDE s /\
      exec 0xe1 s = pop rHL s /\ exec 0xf1 s = pop rPSW s).
Proof.
  split.
  - intros r s. destruct (pop_flags_shape r s) as [f0 ->].
    apply forced_chain_fixed.
  - intros s. repeat split; reflexivity.
Qed.

Lemma forced_chain_eq f :
  byte_ok f ->
  wrap8 (Z.lor (wrap8 (Z.land (wrap8 (Z.land f (Z.lnot 32))) (Z.lnot 8))) 2)
  = forced_flags f.
Proof.
  intros Hf. apply Z.eqb_eq.
  apply (forall_byte
           (fun f =>
              wrap8 (Z.lor (wrap8 (Z.land (wrap8 (Z.land f (Z.lnot 32)))
                                          (Z.lnot 8))) 2)
              =? forced_flags f)); [vm_compute; reflexivity | exact Hf].
Qed.

Lemma forced_flags_fixed f : byte_ok f -> fixed_bits (forced_flags f).
Proof.
  intros Hf. rewrite <- (forced_chain_eq f Hf). apply forced_chain_fixed.
Qed.

Lemma pushed_word_read_back m sp p :
  byte_ok (low p) -> byte_ok (high p) ->
  of_full (load16 (store16 m sp (full p)) sp) = p.
Proof.
  intros Hlo Hhi.
  rewrite load16_store16 by now apply full_word_ok.
  now apply of_full_full.
Qed.

(** C6: PUSH of a register pair followed by POP into the same pair gives the
    pair (both of its bytes) the value it had, for BC, DE and HL; for PSW the
    accumulator is restored and the flags byte comes back with bits 1, 3, 5
    forced to 1, 0, 0 and its other bits as they were. *)
Theorem push_pop_restores_pair :
  forall s,
    regs_ok s ->
    _BC (exec 0xc1 (exec 0xc5 s)) = _BC s /\
    _DE (exec 0xd1 (exec 0xd5 s)) = _DE s /\
    _HL (exec 0xe1 (exec 0xe5 s)) = _HL s /\
    A (exec 0xf1 (exec 0xf5 s)) = A s /\
    flags (exec 0xf1 (exec 0xf5 s)) = forced_flags (flags s) /\
    fixed_bits (flags (exec 0xf1 (exec 0xf5 s))).
Proof.
  intros s (HA & HF & HB & HC & HD & HE & HH & HL').
  assert (Hpsw : of_full (load16 (store16 (ram s) (wrap16 (SP s - 2))
                                          (full (_PSW s)))
                                 (wrap16 (SP s - 2))) = _PSW s)
    by now apply pushed_word_read_back.
  assert (Hflags : flags (exec 0xf1 (exec 0xf5 s)) = forced_flags (flags s)).
  { change (flags (exec 0xf1 (exec 0xf5 s)))
      with (wrap8 (Z.lor (wrap8 (Z.land (wrap8 (Z.land
              (low (of_full (load16 (store16 (ram s) (wrap16 (SP s - 2))
                                             (full (_PSW s)))
                                    (wrap16 (SP s - 2)))))
              (Z.lnot 32))) (Z.lnot 8))) 2)).
    rewrite Hpsw. now apply forced_chain_eq. }
  repeat split.
  - change (_BC (exec 0xc1 (exec 0xc5 s)))
      with (of_full (load16 (store16 (ram s) (wrap16 (SP s - 2)) (full (_BC s)))
                            (wrap16 (SP s - 2)))).
    now apply pushed_word_read_back.
  - change (_DE (exec 0xd1 (exec 0xd5 s)))
      with (of_full (load16 (store16 (ram s) (wrap16 (SP s - 2)) (full (_DE s)))
                            (wrap16 (SP s - 2)))).
    now apply pushed_word_read_back.
  - change (_HL (exec 0xe1 (exec 0xe5 s)))
      with (of_full (load16 (store16 (ram s) (wrap16 (SP s - 2)) (full (_HL s)))
                            (wrap16 (SP s - 2)))).
    now apply pushed_word_read_back.
  - change (A (exec 0xf1 (exec 0xf5 s)))
      with (high (of_full (load16 (store16 (ram s) (wrap16 (SP s - 2))
                                           (full (_PSW s)))
                                  (wrap16 (SP s - 2))))).
    rewrite Hpsw. reflexivity.
  - exact Hflags.
  - rewrite Hflags. apply forced_flags_fixed. exact HF.
  - rewrite Hflags. apply forced_flags_fixed. exact HF.
  - rewrite Hflags. apply forced_flags_fixed. exact HF.
Qed.

(** ** Rotations *)

Lemma A_setFlag f c s : A (setFlag f c s) = A s.
Proof. destruct c; reflexivity. Qed.

Lemma A_set_rA v s : A (set_r8 rA v s) = v.
Proof. reflexivity. Qed.

Lemma A_RLC s :
  A (exec 0x07 s)
  = wrap8 (wrap8 (Z.shiftl (A s) 1) + wrap8 (wrap16 (highBitsOf (A s) 1))).
Proof.
  unfold exec. cbv zeta. rewrite !A_set_rA, !A_setFlag. reflexivity.
Qed.

Lemma A_RRC s :
  A (exec 0x0f s)
  = wrap8 (wrap8 (Z.shiftr (A s) 1)
           + Z.shiftl 1 7 * wrap8 (wrap16 (lowBitsOf (A s) 1))).
Proof.
  unfold exec. cbv zeta. rewrite !A_set_rA, !A_setFlag. reflexivity.
Qed.

Lemma A_RAL s : A (exec 0x17 s) = wrap8 (Z.shiftl (A s) 1).
Proof.
  unfold exec. cbv zeta. rewrite !A_set_rA, !A_setFlag. reflexivity.
Qed.

Lemma A_RAR s : A (exec 0x1f s) = wrap8 (Z.shiftr (A s) 1).
Proof.
  unfold exec. cbv zeta. rewrite !A_set_rA, !A_setFlag. reflexivity.
Qed.

Lemma rlc_rrc_byte a :
  byte_ok a ->
  let a1 := wrap8 (wrap8 (Z.shiftl a 1) + wrap8 (wrap16 (highBitsOf a 1))) in
  wrap8 (wrap8 (Z.shiftr a1 1) + Z.shiftl 1 7 * wrap8 (wrap16 (lowBitsOf a1 1)))
  = a.
Proof.
  intros Ha. cbv zeta. apply Z.eqb_eq. revert a Ha.
  apply (forall_byte
    (fun a =>
       let a1 := wrap8 (wrap8 (Z.shiftl a 1) + wrap8 (wrap16 (highBitsOf a 1))) in
       wrap8 (wrap8 (Z.shiftr a1 1)
              + Z.shiftl 1 7 * wrap8 (wrap16 (lowBitsOf a1 1))) =? a)).
  vm_compute. reflexivity.
Qed.

Lemma ral_rar_byte a :
  byte_ok a -> wrap8 (Z.shiftr (wrap8 (Z.shiftl a 1)) 1) = Z.land a 0x7f.
Proof.
  intros Ha. apply Z.eqb_eq. revert a Ha.
  apply (forall_byte
    (fun a => wrap8 (Z.shiftr (wrap8 (Z.shiftl a 1)) 1) =? Z.land a 0x7f)).
  vm_compute. reflexivity.
Qed.

Lemma land_7f_fixpoint a : byte_ok a -> (Z.land a 0x7f = a <-> a < 128).
Proof.
  intros Ha. change 0x7f with (Z.ones 7). rewrite Z.land_ones by lia.
  change (2 ^ 7) with 128. unfold byte_ok in Ha. split; intros H0.
  - pose proof (Z.mod_pos_bound a 128 eq_refl). lia.
  - apply Z.mod_small. lia.
Qed.

(** C5 (as amended): for every accumulator value and every Carry flag, RLC
    then RRC gives the accumulator its original value; RAL then RAR gives it
    the original value with bit 7 cleared, whatever the Carry flag is before
    or between the two instructions, so the accumulator is restored exactly
    when its bit 7 was 0. *)
Theorem rotate_round_trips :
  forall s,
    byte_ok (A s) ->
    A (exec 0x0f (exec 0x07 s)) = A s /\
    A (exec 0x1f (exec 0x17 s)) = Z.land (A s) 0x7f /\
    (forall c, A (exec 0x1f (setFlag carry c (exec 0x17 s))) = Z.land (A s) 0x7f) /\
    (A (exec 0x1f (exec 0x17 s)) = A s <-> A s < 128).
Proof.
  intros s Ha.
  assert (Hrot : A (exec 0x1f (exec 0x17 s)) = Z.land (A s) 0x7f).
  { rewrite A_RAR, A_RAL. now apply ral_rar_byte. }
  repeat split.
  - rewrite A_RRC, A_RLC. now apply rlc_rrc_byte.
  - exact Hrot.
  - intros c. rewrite A_RAR, A_setFlag, A_RAL. now apply ral_rar_byte.
  - rewrite Hrot. now apply land_7f_fixpoint.
  - rewrite Hrot. now apply land_7f_fixpoint.
Qed.

(** ** Flags after an update *)

Lemma getFlag_testbit f s : 0 <= f -> getFlag f s = Z.b2z (Z.testbit (flags s) f).
Proof.
  intros Hf. unfold getFlag.
  rewrite Z.shiftr_div_pow2 by exact Hf.
  symmetry. apply Z.testbit_spec'. exact Hf.
Qed.

Lemma flags_setFlag g c s :
  flags (setFlag g c s)
  = wrap8 (if c then Z.lor (flags s) (Z.shiftl 1 g)
           else Z.land (flags s) (Z.lnot (Z.shiftl 1 g))).
Proof. destruct c; reflexivity. Qed.

Lemma testbit_setFlag f g c s :
  flag_pos f = true -> flag_pos g = true ->
  Z.testbit (flags (setFlag g c s)) f
  = if f =? g then c else Z.testbit (flags s) f.
Proof.
  unfold flag_pos. intros Hf Hg.
  apply andb_true_iff in Hf as [Hf0 Hf8], Hg as [Hg0 Hg8].
  apply Z.leb_le in Hf0, Hg0. apply Z.ltb_lt in Hf8, Hg8.
  rewrite flags_setFlag, wrap8_testbit by lia.
  rewrite Z.shiftl_1_l.
  destruct c.
  - rewrite Z.lor_spec, Z.pow2_bits_eqb by lia.
    rewrite (Z.eqb_sym g f). destruct (f =? g); [apply orb_true_r | apply orb_false_r].
  - rewrite Z.land_spec, Z.lnot_spec, Z.pow2_bits_eqb by lia.
    rewrite (Z.eqb_sym g f). destruct (f =? g); [apply andb_false_r | apply andb_true_r].
Qed.

Lemma getFlag_setFlag f g c s :
  flag_pos f = true -> flag_pos g = true ->
  getFlag f (setFlag g c s) = if f =? g then Z.b2z c else getFlag f s.
Proof.
  intros Hf Hg.
  assert (0 <= f) by (unfold flag_pos in Hf; lia).
  rewrite !getFlag_testbit, testbit_setFlag by assumption.
  destruct (f =? g); reflexivity.
Qed.

Lemma getFlag_set_rA f v s : getFlag f (set_r8 rA v s) = getFlag f s.
Proof. reflexivity. Qed.

Lemma A_updateFlags r s : A (updateFlags r s) = A s.
Proof. unfold updateFlags. cbv zeta. now rewrite !A_setFlag. Qed.

(** What [updateFlags] leaves in each of the five named flags. *)
Lemma getFlag_updateFlags r s :
  getFlag sign (updateFlags r s)
  = Z.b2z ((if r <? 128 then r else r - 256) <? 0) /\
  getFlag zero (updateFlags r s) = Z.b2z (r =? 0) /\
  getFlag parity (updateFlags r s) = Z.b2z (negb (truthy (builtin_parity r))) /\
  getFlag carry (updateFlags r s) = getFlag carry s /\
  getFlag auxCarry (updateFlags r s) = getFlag auxCarry s.
Proof.
  unfold updateFlags. cbv zeta.
  repeat split; rewrite !getFlag_setFlag by reflexivity; reflexivity.
Qed.

(** ** Addition and subtraction on every input *)

Lemma b2z_1 b : Z.b2z b = 1 <-> b = true.
Proof. destruct b; cbn; split; intros; congruence. Qed.

Lemma carry_in_bit w s : carry_in w s = 0 \/ carry_in w s = 1.
Proof. unfold carry_in. destruct (w && truthy (getFlag carry s)); auto. Qed.

(** The byte [added] of [add] and [sub]: the operand with the carry folded
    in, wrapped to 8 bits only when the operand is 0xFF and the carry is 1. *)
Lemma added_byte r w s :
  byte_ok r ->
  (if w && truthy (getFlag carry s) then wrap8 (r + 1) else r)
  = wrap8 (r + carry_in w s).
Proof.
  unfold byte_ok, carry_in, wrap8. intros Hr.
  destruct (w && truthy (getFlag carry s)).
  - reflexivity.
  - rewrite Z.add_0_r. symmetry. now apply Z.mod_small.
Qed.

(** [add] on every input: the accumulator is the sum modulo 256; Sign, Zero
    and Parity are those of the new accumulator; Auxiliary Carry is the carry
    out of the low nibbles of the accumulator and of [added]; Carry is the
    overflow of the accumulator plus [added], which is the overflow of the
    true sum unless the operand is 0xFF and the carry in is 1. *)
Lemma add_on_every_input r w s :
  byte_ok r -> byte_ok (A s) ->
  let s' := add r w s in
  let total := A s + r + carry_in w s in
  A s' = total mod 256 /\
  (getFlag carry s' = 1 <-> total > 255 /\ r + carry_in w s <= 255) /\
  (getFlag auxCarry s' = 1 <->
   (A s) mod 16 + ((r + carry_in w s) mod 256) mod 16 > 15) /\
  (getFlag sign s' = 1 <-> 128 <= A s') /\
  (getFlag zero s' = 1 <-> A s' = 0) /\
  (getFlag parity s' = 1 <-> popcount (A s') mod 2 = 0).
Proof.
  intros Hr Ha. cbv zeta.
  pose proof (carry_in_bit w s) as Hcin.
  unfold add. rewrite (added_byte r w s Hr). cbv zeta.
  set (added := wrap8 (r + carry_in w s)).
  assert (Hadded : 0 <= added < 256) by (apply Z.mod_pos_bound; lia).
  unfold updateAuxCarryFlag.
  rewrite !A_set_rA, !A_setFlag.
  set (a' := wrap8 (A s + added)).
  assert (Ha' : a' = (A s + r + carry_in w s) mod 256).
  { unfold a', added, wrap8. rewrite Zplus_mod_idemp_r. f_equal. lia. }
  assert (Ha'b : 0 <= a' < 256) by (apply Z.mod_pos_bound; lia).
  destruct (getFlag_updateFlags a'
              (set_r8 rA a'
                 (setFlag auxCarry (lowBitsOf added 4 + lowBitsOf (A s) 4 >? 15)
                    (setFlag carry (added >? 255 - A s) s))))
    as (Hs & Hz & Hp & Hc & Hx).
  rewrite A_updateFlags, A_set_rA.
  rewrite Hs, Hz, Hp, Hc, Hx.
  rewrite !getFlag_set_rA, !getFlag_setFlag by reflexivity.
  cbn [Z.eqb carry auxCarry Pos.eqb].
  unfold lowBitsOf. rewrite !Z.land_ones by lia. change (2 ^ 4) with 16.
  unfold byte_ok in Hr, Ha.
  split; [exact Ha'|].
  split.
  { rewrite b2z_1, Z.gtb_ltb, Z.ltb_lt. unfold added, wrap8.
    destruct (Z.eq_dec (r + carry_in w s) 256) as [He|He].
    - rewrite He. change (256 mod 256) with 0. lia.
    - rewrite Z.mod_small by lia. lia. }
  split.
  { rewrite b2z_1, Z.gtb_ltb, Z.ltb_lt. unfold added, wrap8. lia. }
  split.
  { rewrite b2z_1. destruct (a' <? 128) eqn:Hlt; rewrite Z.ltb_lt.
    - apply Z.ltb_lt in Hlt. lia.
    - apply Z.ltb_ge in Hlt. lia. }
  split.
  { rewrite b2z_1. apply Z.eqb_eq. }
  unfold truthy, builtin_parity.
  rewrite b2z_1, negb_involutive. apply Z.eqb_eq.
Qed.

(** [sub] on every input: the accumulator is the difference modulo 256;
    Sign, Zero and Parity are those of the new accumulator; Auxiliary Carry is
    left as it was; Carry tells whether [added] exceeds the accumulator, which
    is the borrow of the true subtraction unless the operand is 0xFF and the
    borrow in is 1. *)
Lemma sub_on_every_input r w s :
  byte_ok r -> byte_ok (A s) ->
  let s' := sub r w s in
  A s' = (A s - (r + carry_in w s)) mod 256 /\
  (getFlag carry s' = 1 <-> r + carry_in w s > A s /\ r + carry_in w s <= 255) /\
  getFlag auxCarry s' = getFlag auxCarry s /\
  (getFlag sign s' = 1 <-> 128 <= A s') /\
  (getFlag zero s' = 1 <-> A s' = 0) /\
  (getFlag parity s' = 1 <-> popcount (A s') mod 2 = 0).
Proof.
  intros Hr Ha. cbv zeta.
  pose proof (carry_in_bit w s) as Hcin.
  unfold sub. rewrite (added_byte r w s Hr). cbv zeta.
  set (added := wrap8 (r + carry_in w s)).
  rewrite !A_set_rA, !A_setFlag.
  set (a' := wrap8 (A s - added)).
  assert (Ha' : a' = (A s - (r + carry_in w s)) mod 256).
  { unfold a', added, wrap8. apply Zminus_mod_idemp_r. }
  assert (Ha'b : 0 <= a' < 256) by (apply Z.mod_pos_bound; lia).
  destruct (getFlag_updateFlags a'
              (set_r8 rA a' (setFlag carry (added >? A s) s)))
    as (Hs & Hz & Hp & Hc & Hx).
  rewrite A_updateFlags, A_set_rA.
  rewrite Hs, Hz, Hp, Hc, Hx.
  rewrite !getFlag_set_rA, !getFlag_setFlag by reflexivity.
  cbn [Z.eqb carry auxCarry Pos.eqb].
  unfold byte_ok in Hr, Ha.
  split; [exact Ha'|].
  split.
  { rewrite b2z_1, Z.gtb_ltb, Z.ltb_lt. unfold added, wrap8.
    destruct (Z.eq_dec (r + carry_in w s) 256) as [He|He].
    - rewrite He. change (256 mod 256) with 0. lia.
    - rewrite Z.mod_small by lia. lia. }
  split; [reflexivity|].
  split.
  { rewrite b2z_1. destruct (a' <? 128) eqn:Hlt; rewrite Z.ltb_lt.
    - apply Z.ltb_lt in Hlt. lia.
    - apply Z.ltb_ge in Hlt. lia. }
  split.
  { rewrite b2z_1. apply Z.eqb_eq. }
  unfold truthy, builtin_parity.
  rewrite b2z_1, negb_involutive. apply Z.eqb_eq.
Qed.

End Properties.

(** ** The hex loader always ends *)

Lemma index_colon_bounds contents :
  forall n m,
    index n ":" contents = Some m -> (n <= m < String.length contents)%nat.
Proof.
  induction contents as [|c rest IH]; intros n m Hidx.
  - destruct n; discriminate.
  - destruct n as [|n]; cbn [index] in Hidx.
    + destruct (prefix ":" (String c rest)).
      * injection Hidx as <-. cbn [String.length]. lia.
      * destruct (index 0 ":" rest) as [k|] eqn:Hk; [|discriminate].
        injection Hidx as <-. apply IH in Hk. cbn [String.length]. lia.
    + destruct (index n ":" rest) as [k|] eqn:Hk; [|discriminate].
      injection Hidx as <-. apply IH in Hk. cbn [String.length]. lia.
Qed.

Lemma records_loop_terminates contents :
  forall fuel colonPos st,
    (String.length contents - colonPos < fuel)%nat ->
    records_loop fuel contents colonPos st <> None.
Proof.
  induction fuel as [|fuel IH]; intros colonPos st Hfuel; [lia|].
  cbn [records_loop].
  destruct (index (colonPos + 1) ":" contents) as [next|] eqn:Hnext.
  - apply IH. apply index_colon_bounds in Hnext. lia.
  - discriminate.
Qed.

Lemma loadIntelHexFile_returns file m : loadIntelHexFile file m <> None.
Proof.
  destruct file as [contents|]; cbn [loadIntelHexFile]; [|discriminate].
  destruct (records_loop (S (String.length contents)) contents 0
                         (mkHex 0 0 0 0 [])) eqn:Hloop; [discriminate|].
  exfalso. revert Hloop. apply records_loop_terminates. lia.
Qed.

(** * Scenarios, evaluated on the sample machines *)

(** An interrupt that is latched while interrupts are enabled is not taken by
    the next [step]: [interrupt] itself clears [interruptsEnabled], and [step]
    executes the vector only when [interruptsEnabled] is set. *)
Lemma interrupt_blocks_its_own_delivery {Dev : Type} (s : @cpu Dev) v :
  interruptsEnabled s = true ->
  step (interrupt v s) =
  if halted s then interrupt v s
  else exec (ram s (PC s)) (set_PC (wrap16 (PC s + 1)) (interrupt v s)).
Proof.
  intros Hie. unfold interrupt. rewrite Hie. unfold step.
  cbn [interruptsEnabled set_interruptVector set_interruptPending
       set_interruptsEnabled andb halted].
  destruct (halted s); reflexivity.
Qed.

(** The interrupt branch of [step], when it is reached (both flags set, as
    after an EI executed while the latch is pending), executes the latched
    RST 0: it pushes the program counter, jumps to 0 and clears [halted] and
    the latch; [interruptsEnabled] stays set. *)
Lemma step_executes_latched_rst0 {Dev : Type} (s : @cpu Dev) :
  interruptsEnabled s = true ->
  interruptPending s = true ->
  interruptVector s = 0xc7 ->
  word_ok (PC s) ->
  let s' := step s in
  PC s' = 0 /\ SP s' = wrap16 (SP s - 2) /\ atSP s' = PC s /\
  halted s' = false /\ interruptPending s' = false /\
  interruptsEnabled s' = true.
Proof.
  intros Hie Hip Hvec Hpc. cbv zeta. unfold step.
  rewrite Hie, Hip, Hvec. cbn [andb]. cbv zeta.
  repeat split; try assumption.
  change (load16 (store16 (ram s) (wrap16 (SP s - 2)) (PC s))
                 (wrap16 (SP s - 2)) = PC s).
  now apply load16_store16.
Qed.

(** C1: on the code, [interrupt(0xC7)] followed by one [step] does not take
    the interrupt.  Running: the NOP at the program counter is executed, the
    program counter moves to 0x101 instead of 0, nothing is pushed, and the
    interrupt stays pending.  Halted: the processor stays halted. *)
Theorem interrupt_then_step_on_sample :
  let s1 := step (interrupt 0xc7 cpu_irq_on) in
  let h1 := step (interrupt 0xc7 (set_halted true cpu_irq_on)) in
  (interruptsEnabled cpu_irq_on = true /\ PC cpu_irq_on = 0x100 /\
   SP cpu_irq_on = 0x2000) /\
  (PC s1 = 0x101 /\ SP s1 = 0x2000 /\ load16 (ram s1) 0x1ffe = 0 /\
   interruptPending s1 = true /\ interruptsEnabled s1 = false) /\
  (halted h1 = true /\ PC h1 = 0x100 /\ SP h1 = 0x2000 /\
   interruptPending h1 = true).
Proof. vm_compute. repeat split; reflexivity. Qed.

(** C2: on the code, the scenario file leaves 02 03 04 at addresses 0, 1, 2
    but also writes the checksum 05 of the data record at address 3 and the
    checksum FF of the end-of-file record at address 4; the loader returns
    success, and the buffer it leaves is the zeroed buffer with these five
    bytes stored. *)
Theorem hex_scenario_writes_checksums :
  let m :=
    store8 (store8 (store8 (store8 (store8 zero_ram 0 0x02) 1 0x03) 2 0x04)
                   3 0x05) 4 0xff in
  loadIntelHexFile (Some hex_scenario) zero_ram = Some (true, m) /\
  (forall a,
      m a = match a with
            | 0 => 0x02 | 1 => 0x03 | 2 => 0x04
            | 3 => 0x05 | 4 => 0xff
            | _ => zero_ram a
            end).
Proof.
  cbv zeta. split; [vm_compute; reflexivity|].
  intros a. unfold store8.
  destruct a as [|p|p]; [reflexivity| |reflexivity].
  destruct p as [[[q|q|]|[q|q|]|]|[[q|q|]|[q|q|]|]|]; reflexivity.
Qed.

(** C3: on the code, ADC of the operand 0xFF with the Carry flag set, on an
    accumulator of 0x10, leaves the accumulator at 0x10 with the Carry flag
    clear, although the sum 0x10 + 0xFF + 1 exceeds 255. *)
Theorem add_0xFF_with_carry_in_clears_carry :
  let s1 := add 0xff true cpu_carry_in in
  (A cpu_carry_in = 0x10 /\ getFlag carry cpu_carry_in = 1) /\
  A cpu_carry_in + 0xff + 1 > 255 /\
  A s1 = (A cpu_carry_in + 0xff + 1) mod 256 /\
  getFlag carry s1 = 0.
Proof. vm_compute. repeat split; reflexivity. Qed.

(** C4: on the code, SBB of the operand 0xFF with the Carry flag set, on an
    accumulator of 0x10, leaves the accumulator at 0x10 with the Carry flag
    clear, although the amount subtracted, 0xFF + 1, exceeds the
    accumulator. *)
Theorem sub_0xFF_with_borrow_in_clears_carry :
  let s1 := sub 0xff true cpu_carry_in in
  (A cpu_carry_in = 0x10 /\ getFlag carry cpu_carry_in = 1) /\
  0xff + 1 > A cpu_carry_in /\
  A s1 = (A cpu_carry_in - (0xff + 1)) mod 256 /\
  getFlag carry s1 = 0 /\
  getFlag auxCarry s1 = getFlag auxCarry cpu_carry_in.
Proof. vm_compute. repeat split; reflexivity. Qed.

(** C5 as stated fails: with 0x80 in the accumulator, RAL then RAR leaves 0
    in the accumulator, also when the Carry flag is put back to either value
    between the two instructions. *)
Lemma ral_rar_loses_bit_7 :
  A cpu_A80 = 0x80 /\
  A (exec 0x1f (exec 0x17 cpu_A80)) <> A cpu_A80 /\
  (forall c, A (exec 0x1f (setFlag carry c (exec 0x17 cpu_A80))) <> A cpu_A80).
Proof.
  split; [reflexivity|]. split.
  - vm_compute. discriminate.
  - intros []; vm_compute; discriminate.
Qed.

(** * The theorems at concrete machines *)

Lemma exec_0xCB_is_nop_witness :
  step (cpu_fetching 0xcb sample_cpu)
  = set_PC 0x101 (cpu_fetching 0xcb sample_cpu).
Proof.
  apply (proj2 (@exec_0xCB_is_nop unit) (cpu_fetching 0xcb sample_cpu));
    reflexivity.
Defined.

Lemma hlt_then_steps_change_nothing_witness :
  halted (step (cpu_fetching 0x76 sample_cpu)) = true /\
  steps 5 (step (cpu_fetching 0x76 sample_cpu))
  = step (cpu_fetching 0x76 sample_cpu).
Proof.
  apply (proj2 (@hlt_then_steps_change_nothing unit
                  (cpu_fetching 0x76 sample_cpu) 5 eq_refl));
    reflexivity.
Defined.

Lemma untaken_transfer_only_advances_PC_witness :
  let s := cpu_fetching 0xc2 (setFlag zero true sample_cpu) in
  exec 0xc2 s = set_PC 0x102 s /\ step s = set_PC 0x103 s.
Proof.
  cbv zeta.
  pose proof (@untaken_transfer_only_advances_PC unit 0xc2 zero 0
                (cpu_fetching 0xc2 (setFlag zero true sample_cpu))
                (or_introl eq_refl)) as Hw.
  assert (Hflag : getFlag zero (cpu_fetching 0xc2 (setFlag zero true sample_cpu))
                  <> 0) by (vm_compute; discriminate).
  destruct (Hw Hflag) as [Hexec Hstep].
  split; [exact Hexec | apply Hstep; reflexivity].
Defined.

Lemma push_pop_restores_pair_witness :
  regs_ok cpu_regs /\
  _BC (exec 0xc1 (exec 0xc5 cpu_regs)) = mkPair 0x34 0x56 /\
  A (exec 0xf1 (exec 0xf5 cpu_regs)) = 0x12 /\
  flags (exec 0xf1 (exec 0xf5 cpu_regs)) = 0xd7.
Proof.
  assert (Hok : regs_ok cpu_regs)
    by (unfold regs_ok, byte_ok; cbn; lia).
  split; [exact Hok|].
  destruct (@push_pop_restores_pair unit cpu_regs Hok)
    as (Hbc & _ & _ & Ha & Hf & _).
  split; [exact Hbc | split; [exact Ha | exact Hf]].
Defined.

Lemma rotate_round_trips_witness :
  byte_ok (A cpu_A80) /\
  A (exec 0x0f (exec 0x07 cpu_A80)) = 0x80 /\
  A (exec 0x1f (exec 0x17 cpu_A80)) = 0.
Proof.
  assert (Hok : byte_ok (A cpu_A80)) by (unfold byte_ok; cbn; lia).
  split; [exact Hok|].
  destruct (@rotate_round_trips unit cpu_A80 Hok) as (Hrlc & Hral & _).
  split; [exact Hrlc | exact Hral].
Defined.

(** * Further properties *)

Section FlagsAndArithmetic.

Context {Dev : Type}.
Implicit Types s : @cpu Dev.

(** ** Flag access *)

Lemma setFlag_only_flags g c s :
  setFlag g c s = set_r8 rFlags (flags (setFlag g c s)) s.
Proof. destruct c; reflexivity. Qed.

Lemma flags_setFlag_byte g c s : byte_ok (flags (setFlag g c s)).
Proof.
  rewrite flags_setFlag. unfold byte_ok, wrap8. apply Z.mod_pos_bound. lia.
Qed.

(** X1: [setFlag] at a legal position gives that bit the value of the
    condition, leaves every other flag bit as it was, changes nothing but
    the flags register, and leaves a byte in it. *)
Theorem setFlag_changes_one_bit :
  forall f g c s,
    flag_pos f = true -> flag_pos g = true ->
    getFlag g (setFlag g c s) = Z.b2z c /\
    (f <> g -> getFlag f (setFlag g c s) = getFlag f s) /\
    setFlag g c s = set_r8 rFlags (flags (setFlag g c s)) s /\
    byte_ok (flags (setFlag g c s)).
Proof.
  intros f g c s Hf Hg. split; [|split; [|split]].
  - rewrite getFlag_setFlag by assumption. now rewrite Z.eqb_refl.
  - intros Hne. rewrite getFlag_setFlag by assumption.
    now replace (f =? g) with false by (symmetry; apply Z.eqb_neq; exact Hne).
  - apply setFlag_only_flags.
  - apply flags_setFlag_byte.
Qed.

(** ** Comparison, addition and subtraction without carry in *)

Lemma carry_in_false s : carry_in false s = 0.
Proof. reflexivity. Qed.

(** X2: [cmp] leaves the accumulator as it was and the flags as [sub]
    without borrow leaves them: Zero tells that the accumulator equals the
    operand, Carry that it is below the operand. *)
Theorem cmp_compares :
  forall r s,
    byte_ok r -> byte_ok (A s) ->
    A (cmp r s) = A s /\
    flags (cmp r s) = flags (sub r false s) /\
    (getFlag zero (cmp r s) = 1 <-> A s = r) /\
    (getFlag carry (cmp r s) = 1 <-> A s < r).
Proof.
  intros r s Hr Ha.
  destruct (sub_on_every_input r false s Hr Ha) as (HA & HC & _ & _ & HZ & _).
  rewrite carry_in_false, Z.add_0_r in HA, HC.
  unfold byte_ok in Hr, Ha.
  split; [reflexivity|]. split; [reflexivity|].
  change (getFlag zero (cmp r s)) with (getFlag zero (sub r false s)).
  change (getFlag carry (cmp r s)) with (getFlag carry (sub r false s)).
  split.
  - rewrite HZ, HA. split.
    + intros Hm. revert Hm. Z.div_mod_to_equations. lia.
    + intros ->. now rewrite Z.sub_diag.
  - rewrite HC. lia.
Qed.

(** X3: [add] without a carry coming in (ADD, ADI, and ADC, ACI when the
    Carry flag is clear) is 8-bit addition: the accumulator is the sum modulo
    256, Carry tells that the sum exceeds 255, Auxiliary Carry that the sum
    of the low nibbles exceeds 15, and Sign, Zero, Parity describe the new
    accumulator (Parity is set when its number of 1-bits is even). *)
Theorem add_without_carry_in :
  forall r w s,
    byte_ok r -> byte_ok (A s) -> carry_in w s = 0 ->
    let s' := add r w s in
    A s' = (A s + r) mod 256 /\
    (getFlag carry s' = 1 <-> A s + r > 255) /\
    (getFlag auxCarry s' = 1 <-> (A s) mod 16 + r mod 16 > 15) /\
    (getFlag sign s' = 1 <-> 128 <= A s') /\
    (getFlag zero s' = 1 <-> A s' = 0) /\
    (getFlag parity s' = 1 <-> popcount (A s') mod 2 = 0).
Proof.
  intros r w s Hr Ha Hcin. cbv zeta.
  destruct (add_on_every_input r w s Hr Ha) as (HA & HC & HX & HS & HZ & HP).
  rewrite Hcin, !Z.add_0_r in HA, HC, HX.
  unfold byte_ok in Hr.
  rewrite (Z.mod_small r 256) in HX by lia.
  split; [exact HA|]. split; [rewrite HC; lia|].
  split; [exact HX|]. split; [exact HS|]. split; [exact HZ | exact HP].
Qed.

(** X4: [sub] without a borrow coming in (SUB, SUI, and SBB, SBI when the
    Carry flag is clear) is 8-bit subtraction: the accumulator is the
    difference modulo 256, Carry tells that the operand exceeds the
    accumulator, Auxiliary Carry is left as it was, and Sign, Zero, Parity
    describe the new accumulator. *)
Theorem sub_without_borrow_in :
  forall r w s,
    byte_ok r -> byte_ok (A s) -> carry_in w s = 0 ->
    let s' := sub r w s in
    A s' = (A s - r) mod 256 /\
    (getFlag carry s' = 1 <-> r > A s) /\
    getFlag auxCarry s' = getFlag auxCarry s /\
    (getFlag sign s' = 1 <-> 128 <= A s') /\
    (getFlag zero s' = 1 <-> A s' = 0) /\
    (getFlag parity s' = 1 <-> popcount (A s') mod 2 = 0).
Proof.
  intros r w s Hr Ha Hcin. cbv zeta.
  destruct (sub_on_every_input r w s Hr Ha) as (HA & HC & HX & HS & HZ & HP).
  rewrite Hcin, !Z.add_0_r in HA, HC.
  unfold byte_ok in Hr.
  split; [exact HA|]. split; [rewrite HC; lia|].
  split; [exact HX|]. split; [exact HS|]. split; [exact HZ | exact HP].
Qed.

(** Adding an operand and then subtracting the same operand, both
    without carry, gives the accumulator its original value. *)
Theorem add_then_sub_restores_A :
  forall r s,
    byte_ok r -> byte_ok (A s) ->
    A (sub r false (add r false s)) = A s.
Proof.
  intros r s Hr Ha.
  destruct (add_on_every_input r false s Hr Ha) as (HA & _).
  rewrite carry_in_false, Z.add_0_r in HA.
  assert (Ha' : byte_ok (A (add r false s))).
  { rewrite HA. unfold byte_ok. apply Z.mod_pos_bound. lia. }
  destruct (sub_on_every_input r false (add r false s) Hr Ha') as (HB & _).
  rewrite carry_in_false, Z.add_0_r in HB. rewrite HB, HA.
  rewrite Zminus_mod_idemp_l.
  replace (A s + r - r) with (A s) by lia.
  apply Z.mod_small. exact Ha.
Qed.

End FlagsAndArithmetic.

Section RegistersAndLogic.

Context {Dev : Type}.
Implicit Types s : @cpu Dev.

(** ** Increment and decrement *)

Lemma get_r8_setFlag r f c s :
  r <> rFlags -> get_r8 r (setFlag f c s) = get_r8 r s.
Proof. intros Hr. destruct c, r; try reflexivity; contradiction. Qed.

Lemma getFlag_set_r8 r f v s :
  r <> rFlags -> getFlag f (set_r8 r v s) = getFlag f s.
Proof. intros Hr. destruct r; try reflexivity; contradiction. Qed.

Lemma get_r8_set_r8 r v s : get_r8 r (set_r8 r v s) = v.
Proof.
  destruct r; try reflexivity.
  cbn [get_r8 set_r8]. unfold atHL, set_ram, store8. cbn [ram HL _HL].
  now rewrite Z.eqb_refl.
Qed.

Lemma get_r8_updateFlags r x s :
  r <> rFlags -> get_r8 r (updateFlags x s) = get_r8 r s.
Proof.
  intros Hr. unfold updateFlags. cbv zeta.
  now rewrite !get_r8_setFlag by exact Hr.
Qed.

Lemma inr_shape r s :
  r <> rFlags ->
  inr r s =
  updateFlags (wrap8 (get_r8 r s + 1))
    (set_r8 r (wrap8 (get_r8 r s + 1))
       (setFlag auxCarry (lowBitsOf (get_r8 r s) 4 =? 15) s)).
Proof.
  intros Hr. unfold inr. cbv zeta.
  now rewrite get_r8_set_r8, get_r8_setFlag by exact Hr.
Qed.

Lemma dcr_shape r s :
  r <> rFlags ->
  dcr r s =
  updateFlags (wrap8 (get_r8 r s - 1))
    (set_r8 r (wrap8 (get_r8 r s - 1))
       (setFlag auxCarry (lowBitsOf (get_r8 r s) 4 =? 0) s)).
Proof.
  intros Hr. unfold dcr. cbv zeta.
  now rewrite get_r8_set_r8, get_r8_setFlag by exact Hr.
Qed.

Lemma lowBitsOf_4 x : lowBitsOf x 4 = x mod 16.
Proof. unfold lowBitsOf. now rewrite Z.land_ones by lia. Qed.

(** X6: [inr] and [dcr] on a register or on the memory cell at HL add and
    subtract 1 modulo 256 and never change the Carry flag; Zero tells that
    the result is 0, and Auxiliary Carry that the low nibble was 15 before
    an increment, 0 before a decrement. *)
Theorem inr_dcr_wrap_and_keep_carry :
  forall r s,
    r <> rFlags ->
    (get_r8 r (inr r s) = (get_r8 r s + 1) mod 256 /\
     get_r8 r (dcr r s) = (get_r8 r s - 1) mod 256) /\
    (getFlag carry (inr r s) = getFlag carry s /\
     getFlag carry (dcr r s) = getFlag carry s) /\
    ((getFlag zero (inr r s) = 1 <-> get_r8 r (inr r s) = 0) /\
     (getFlag zero (dcr r s) = 1 <-> get_r8 r (dcr r s) = 0)) /\
    ((getFlag auxCarry (inr r s) = 1 <-> (get_r8 r s) mod 16 = 15) /\
     (getFlag auxCarry (dcr r s) = 1 <-> (get_r8 r s) mod 16 = 0)).
Proof.
  intros r s Hr.
  assert (Hi : get_r8 r (inr r s) = (get_r8 r s + 1) mod 256).
  { rewrite inr_shape by exact Hr.
    now rewrite get_r8_updateFlags, get_r8_set_r8 by exact Hr. }
  assert (Hd : get_r8 r (dcr r s) = (get_r8 r s - 1) mod 256).
  { rewrite dcr_shape by exact Hr.
    now rewrite get_r8_updateFlags, get_r8_set_r8 by exact Hr. }
  split; [split; assumption|].
  split; [|split].
  - rewrite inr_shape, dcr_shape by exact Hr. split.
    + destruct (getFlag_updateFlags (wrap8 (get_r8 r s + 1))
        (set_r8 r (wrap8 (get_r8 r s + 1))
           (setFlag auxCarry (lowBitsOf (get_r8 r s) 4 =? 15) s)))
        as (_ & _ & _ & -> & _).
      rewrite getFlag_set_r8 by exact Hr.
      now rewrite getFlag_setFlag by reflexivity.
    + destruct (getFlag_updateFlags (wrap8 (get_r8 r s - 1))
        (set_r8 r (wrap8 (get_r8 r s - 1))
           (setFlag auxCarry (lowBitsOf (get_r8 r s) 4 =? 0) s)))
        as (_ & _ & _ & -> & _).
      rewrite getFlag_set_r8 by exact Hr.
      now rewrite getFlag_setFlag by reflexivity.
  - rewrite Hi, Hd. rewrite inr_shape, dcr_shape by exact Hr. split.
    + destruct (getFlag_updateFlags (wrap8 (get_r8 r s + 1))
        (set_r8 r (wrap8 (get_r8 r s + 1))
           (setFlag auxCarry (lowBitsOf (get_r8 r s) 4 =? 15) s)))
        as (_ & -> & _).
      rewrite b2z_1. apply Z.eqb_eq.
    + destruct (getFlag_updateFlags (wrap8 (get_r8 r s - 1))
        (set_r8 r (wrap8 (get_r8 r s - 1))
           (setFlag auxCarry (lowBitsOf (get_r8 r s) 4 =? 0) s)))
        as (_ & -> & _).
      rewrite b2z_1. apply Z.eqb_eq.
  - rewrite inr_shape, dcr_shape by exact Hr. split.
    + destruct (getFlag_updateFlags (wrap8 (get_r8 r s + 1))
        (set_r8 r (wrap8 (get_r8 r s + 1))
           (setFlag auxCarry (lowBitsOf (get_r8 r s) 4 =? 15) s)))
        as (_ & _ & _ & _ & ->).
      rewrite getFlag_set_r8 by exact Hr.
      rewrite getFlag_setFlag by reflexivity. cbn [Z.eqb auxCarry Pos.eqb].
      rewrite b2z_1, lowBitsOf_4. apply Z.eqb_eq.
    + destruct (getFlag_updateFlags (wrap8 (get_r8 r s - 1))
        (set_r8 r (wrap8 (get_r8 r s - 1))
           (setFlag auxCarry (lowBitsOf (get_r8 r s) 4 =? 0) s)))
        as (_ & _ & _ & _ & ->).
      rewrite getFlag_set_r8 by exact Hr.
      rewrite getFlag_setFlag by reflexivity. cbn [Z.eqb auxCarry Pos.eqb].
      rewrite b2z_1, lowBitsOf_4. apply Z.eqb_eq.
Qed.

(** X7: an increment followed by a decrement of the same register or
    memory cell, and a decrement followed by an increment, give it the byte
    it held. *)
Theorem inr_dcr_round_trip :
  forall r s,
    r <> rFlags -> byte_ok (get_r8 r s) ->
    get_r8 r (dcr r (inr r s)) = get_r8 r s /\
    get_r8 r (inr r (dcr r s)) = get_r8 r s.
Proof.
  intros r s Hr Hb. unfold byte_ok in Hb. split.
  - rewrite (dcr_shape r (inr r s)) by exact Hr.
    rewrite get_r8_updateFlags, get_r8_set_r8 by exact Hr.
    rewrite (inr_shape r s) by exact Hr.
    rewrite get_r8_updateFlags, get_r8_set_r8 by exact Hr.
    unfold wrap8. rewrite Zminus_mod_idemp_l.
    replace (get_r8 r s + 1 - 1) with (get_r8 r s) by lia.
    now apply Z.mod_small.
  - rewrite (inr_shape r (dcr r s)) by exact Hr.
    rewrite get_r8_updateFlags, get_r8_set_r8 by exact Hr.
    rewrite (dcr_shape r s) by exact Hr.
    rewrite get_r8_updateFlags, get_r8_set_r8 by exact Hr.
    unfold wrap8. rewrite Zplus_mod_idemp_l.
    replace (get_r8 r s - 1 + 1) with (get_r8 r s) by lia.
    now apply Z.mod_small.
Qed.

End RegistersAndLogic.

Section LogicAndPairs.

Context {Dev : Type}.
Implicit Types s : @cpu Dev.

(** ** Bitwise operations *)

Lemma byte_high_bit x n : byte_ok x -> 8 <= n -> Z.testbit x n = false.
Proof.
  unfold byte_ok. intros Hx Hn.
  rewrite <- (Z.mod_small x (2 ^ 8)) by (change (2 ^ 8) with 256; lia).
  apply Z.mod_pow2_bits_high. lia.
Qed.

Lemma byte_of_high_bits y :
  (forall n, 8 <= n -> Z.testbit y n = false) -> byte_ok y.
Proof.
  intros Hhigh.
  assert (Hy : y mod 2 ^ 8 = y).
  { apply Z.bits_inj'. intros n Hn.
    destruct (Z_lt_le_dec n 8) as [Hlt | Hge].
    - apply Z.mod_pow2_bits_low. lia.
    - rewrite Z.mod_pow2_bits_high by lia. symmetry. now apply Hhigh. }
  unfold byte_ok. rewrite <- Hy. change (2 ^ 8) with 256.
  apply Z.mod_pos_bound. lia.
Qed.

Lemma bitwise_bytes a r :
  byte_ok a -> byte_ok r ->
  byte_ok (Z.land a r) /\ byte_ok (Z.lor a r) /\ byte_ok (Z.lxor a r).
Proof.
  intros Ha Hr.
  repeat split; apply byte_of_high_bits; intros n Hn;
    rewrite ?Z.land_spec, ?Z.lor_spec, ?Z.lxor_spec;
    rewrite (byte_high_bit a n Ha Hn), (byte_high_bit r n Hr Hn); reflexivity.
Qed.

Lemma szp_of_byte x :
  byte_ok x ->
  (Z.b2z ((if x <? 128 then x else x - 256) <? 0) = 1 <-> 128 <= x) /\
  (Z.b2z (x =? 0) = 1 <-> x = 0) /\
  (Z.b2z (negb (truthy (builtin_parity x))) = 1 <-> popcount x mod 2 = 0).
Proof.
  unfold byte_ok. intros Hx. split; [|split].
  - rewrite b2z_1. destruct (x <? 128) eqn:Hlt; rewrite Z.ltb_lt.
    + apply Z.ltb_lt in Hlt. lia.
    + apply Z.ltb_ge in Hlt. lia.
  - rewrite b2z_1. apply Z.eqb_eq.
  - unfold truthy, builtin_parity. rewrite b2z_1, negb_involutive.
    apply Z.eqb_eq.
Qed.

Lemma logic_result x s :
  byte_ok x ->
  let s' := setFlag carry false (updateFlags (wrap8 x) (set_r8 rA (wrap8 x) s)) in
  A s' = x /\
  getFlag carry s' = 0 /\
  getFlag auxCarry s' = getFlag auxCarry s /\
  (getFlag sign s' = 1 <-> 128 <= x) /\
  (getFlag zero s' = 1 <-> x = 0) /\
  (getFlag parity s' = 1 <-> popcount x mod 2 = 0).
Proof.
  intros Hx. cbv zeta.
  assert (Hw : wrap8 x = x) by (apply Z.mod_small; exact Hx).
  rewrite Hw.
  destruct (getFlag_updateFlags x (set_r8 rA x s)) as (Hs & Hz & Hp & _ & Ha).
  destruct (szp_of_byte x Hx) as (Hs' & Hz' & Hp').
  rewrite !getFlag_setFlag by reflexivity. cbn [Z.eqb carry auxCarry sign zero parity Pos.eqb Z.b2z].
  rewrite A_setFlag, A_updateFlags, A_set_rA, Hs, Hz, Hp, Ha, getFlag_set_rA.
  repeat split; try tauto; try apply Hs'; try apply Hz'; try apply Hp'.
Qed.

(** X8: each bitwise operation (AND, OR, XOR) leaves in the accumulator the
    bitwise combination of the accumulator and the operand, always clears
    Carry, leaves Auxiliary Carry as it was, and sets Sign, Zero and Parity
    from the result. *)
Theorem logic_ops_combine_and_clear_carry :
  forall op bop r s,
    In (op, bop) logic_ops ->
    byte_ok r -> byte_ok (A s) ->
    A (op r s) = bop (A s) r /\
    getFlag carry (op r s) = 0 /\
    getFlag auxCarry (op r s) = getFlag auxCarry s /\
    (getFlag sign (op r s) = 1 <-> 128 <= A (op r s)) /\
    (getFlag zero (op r s) = 1 <-> A (op r s) = 0) /\
    (getFlag parity (op r s) = 1 <-> popcount (A (op r s)) mod 2 = 0).
Proof.
  intros op bop r s Hin Hr Ha.
  destruct (bitwise_bytes (A s) r Ha Hr) as (Hand & Hor & Hxor).
  unfold logic_ops in Hin. cbn [In] in Hin.
  assert (Hshape : op r s =
            setFlag carry false
              (updateFlags (wrap8 (bop (A s) r))
                 (set_r8 rA (wrap8 (bop (A s) r)) s)) /\
          byte_ok (bop (A s) r)).
  { destruct Hin as [Hin | [Hin | [Hin | []]]];
      injection Hin as <- <-; (split; [reflexivity | assumption]). }
  destruct Hshape as [-> Hb].
  destruct (logic_result (bop (A s) r) s Hb) as (H1 & H2 & H3 & H4 & H5 & H6).
  rewrite H1. repeat split; try assumption; try apply H4; try apply H5;
    try apply H6.
Qed.

(** X9: the idioms on the accumulator alone.  XRA A and SUB A clear the
    accumulator, set Zero and clear Carry whatever the accumulator holds;
    ORA A and ANA A leave the accumulator as it is, clear Carry and set Zero
    exactly when the accumulator is 0. *)
Theorem accumulator_idioms :
  forall s,
    (A (exec 0xaf s) = 0 /\ getFlag zero (exec 0xaf s) = 1 /\
     getFlag carry (exec 0xaf s) = 0) /\
    (A (exec 0x97 s) = 0 /\ getFlag zero (exec 0x97 s) = 1 /\
     getFlag carry (exec 0x97 s) = 0) /\
    (byte_ok (A s) ->
     (A (exec 0xb7 s) = A s /\ getFlag carry (exec 0xb7 s) = 0 /\
      (getFlag zero (exec 0xb7 s) = 1 <-> A s = 0)) /\
     (A (exec 0xa7 s) = A s /\ getFlag carry (exec 0xa7 s) = 0 /\
      (getFlag zero (exec 0xa7 s) = 1 <-> A s = 0))).
Proof.
  intros s. split; [|split].
  - change (exec 0xaf s)
      with (setFlag carry false
              (updateFlags (wrap8 (Z.lxor (A s) (A s)))
                 (set_r8 rA (wrap8 (Z.lxor (A s) (A s))) s))).
    rewrite Z.lxor_nilpotent.
    destruct (logic_result 0 s) as (H1 & H2 & _ & _ & H5 & _);
      [unfold byte_ok; lia|].
    split; [exact H1|]. split; [now apply H5 | exact H2].
  - assert (Hsub : exec 0x97 s =
                     updateFlags 0 (set_r8 rA 0 (setFlag carry false s))).
    { unfold exec, sub. cbn [get_r8 andb]. cbv zeta.
      rewrite !A_set_rA, !A_setFlag, Z.sub_diag.
      replace (A s >? A s) with false; [reflexivity|].
      symmetry. rewrite Z.gtb_ltb. apply Z.ltb_irrefl. }
    rewrite Hsub.
    destruct (getFlag_updateFlags 0 (set_r8 rA 0 (setFlag carry false s)))
      as (_ & Hz & _ & Hc & _).
    rewrite A_updateFlags, A_set_rA, Hz, Hc, getFlag_set_rA.
    rewrite getFlag_setFlag by reflexivity.
    repeat split; reflexivity.
  - intros Ha. split.
    + change (exec 0xb7 s)
        with (setFlag carry false
                (updateFlags (wrap8 (Z.lor (A s) (A s)))
                   (set_r8 rA (wrap8 (Z.lor (A s) (A s))) s))).
      rewrite Z.lor_diag.
      destruct (logic_result (A s) s Ha) as (H1 & H2 & _ & _ & H5 & _).
      split; [exact H1|]. split; [exact H2 | exact H5].
    + change (exec 0xa7 s)
        with (setFlag carry false
                (updateFlags (wrap8 (Z.land (A s) (A s)))
                   (set_r8 rA (wrap8 (Z.land (A s) (A s))) s))).
      rewrite Z.land_diag.
      destruct (logic_result (A s) s Ha) as (H1 & H2 & _ & _ & H5 & _).
      split; [exact H1|]. split; [exact H2 | exact H5].
Qed.

End LogicAndPairs.

Section PairsAndExchanges.

Context {Dev : Type}.
Implicit Types s : @cpu Dev.

(** ** 16-bit addition *)

Lemma get_r16_setFlag r f c s :
  r <> rPSW -> get_r16 r (setFlag f c s) = get_r16 r s.
Proof. intros Hr. destruct c, r; try reflexivity; contradiction. Qed.

Lemma wrap16_word x : word_ok (wrap16 x).
Proof. unfold word_ok, wrap16. apply Z.mod_pos_bound. lia. Qed.

(** X10: [dad] adds a register pair (BC, DE, HL itself or the stack
    pointer) to HL modulo 65536; Carry tells that the sum exceeds 65535; no
    other flag, and neither the accumulator, BC, DE nor the stack pointer,
    changes. *)
Theorem dad_adds_to_HL :
  forall r s,
    r <> rPSW ->
    HL (dad r s) = (HL s + get_r16 r s) mod 65536 /\
    (getFlag carry (dad r s) = 1 <-> HL s + get_r16 r s > 65535) /\
    (forall f, flag_pos f = true -> f <> carry ->
               getFlag f (dad r s) = getFlag f s) /\
    A (dad r s) = A s /\ _BC (dad r s) = _BC s /\ _DE (dad r s) = _DE s /\
    SP (dad r s) = SP s.
Proof.
  intros r s Hr. unfold dad. cbv zeta.
  set (c := get_r16 r s >? 65535 - HL s).
  assert (HHL : HL (setFlag carry c s) = HL s) by (destruct c; reflexivity).
  rewrite HHL, get_r16_setFlag by exact Hr.
  split; [|split; [|split]].
  - change (HL (set_r16 rHL (wrap16 (HL s + get_r16 r s)) (setFlag carry c s)))
      with (full (of_full (wrap16 (HL s + get_r16 r s)))).
    apply full_of_full. apply wrap16_word.
  - change (getFlag carry (set_r16 rHL (wrap16 (HL s + get_r16 r s))
                                   (setFlag carry c s)))
      with (getFlag carry (setFlag carry c s)).
    rewrite getFlag_setFlag by reflexivity. cbn [Z.eqb carry].
    rewrite b2z_1. unfold c. rewrite Z.gtb_ltb, Z.ltb_lt. lia.
  - intros f Hf Hne.
    change (getFlag f (set_r16 rHL (wrap16 (HL s + get_r16 r s))
                               (setFlag carry c s)))
      with (getFlag f (setFlag carry c s)).
    rewrite getFlag_setFlag by (exact Hf || reflexivity).
    now replace (f =? carry) with false by (symmetry; apply Z.eqb_neq; exact Hne).
  - destruct c; repeat split; reflexivity.
Qed.

(** ** Complement and carry instructions *)

Lemma wrap8_lnot a : byte_ok a -> wrap8 (Z.lnot a) = 255 - a.
Proof.
  unfold byte_ok, wrap8, Z.lnot. intros Ha.
  symmetry. apply Z.mod_unique with (q := -1); lia.
Qed.

(** X11: CMA replaces the accumulator by its complement 255 - A without
    touching the flags, and twice in a row restores it; STC sets Carry; CMC
    inverts Carry; STC and CMC change no other flag and not the
    accumulator. *)
Theorem complement_and_carry_instructions :
  forall s,
    flags (exec 0x2f s) = flags s /\
    (byte_ok (A s) ->
     A (exec 0x2f s) = 255 - A s /\ A (exec 0x2f (exec 0x2f s)) = A s) /\
    getFlag carry (exec 0x37 s) = 1 /\
    getFlag carry (exec 0x3f s) = 1 - getFlag carry s /\
    (forall f, flag_pos f = true -> f <> carry ->
               getFlag f (exec 0x37 s) = getFlag f s /\
               getFlag f (exec 0x3f s) = getFlag f s) /\
    A (exec 0x37 s) = A s /\ A (exec 0x3f s) = A s.
Proof.
  intros s. split; [reflexivity|]. split; [|split; [|split; [|split]]].
  - intros Ha.
    assert (H1 : A (exec 0x2f s) = 255 - A s) by (now apply wrap8_lnot).
    split; [exact H1|].
    change (A (exec 0x2f (exec 0x2f s))) with (wrap8 (Z.lnot (A (exec 0x2f s)))).
    rewrite wrap8_lnot; rewrite H1; unfold byte_ok in *; lia.
  - change (exec 0x37 s) with (setFlag carry true s).
    now rewrite getFlag_setFlag by reflexivity.
  - change (exec 0x3f s)
      with (setFlag carry (negb (truthy (getFlag carry s))) s).
    rewrite getFlag_setFlag by reflexivity. cbn [Z.eqb carry].
    destruct (getFlag_bit carry s) as [-> | ->]; reflexivity.
  - intros f Hf Hne.
    change (exec 0x37 s) with (setFlag carry true s).
    change (exec 0x3f s)
      with (setFlag carry (negb (truthy (getFlag carry s))) s).
    rewrite !getFlag_setFlag by (exact Hf || reflexivity).
    replace (f =? carry) with false by (symmetry; apply Z.eqb_neq; exact Hne).
    split; reflexivity.
  - split; apply A_setFlag.
Qed.

(** ** Decimal adjust *)

(** X12: DAA leaves the accumulator as it is when both its nibbles are at
    most 9 and neither Carry nor Auxiliary Carry is set: the instruction
    only recomputes Sign, Zero and Parity. *)
Theorem daa_keeps_valid_decimal :
  forall s,
    bcd_ok (A s) ->
    getFlag auxCarry s = 0 -> getFlag carry s = 0 ->
    exec 0x27 s = updateFlags (A s) s /\
    A (exec 0x27 s) = A s /\
    getFlag carry (exec 0x27 s) = 0 /\ getFlag auxCarry (exec 0x27 s) = 0.
Proof.
  intros s [Hlo Hhi] Hx Hc.
  assert (Hdaa : exec 0x27 s = updateFlags (A s) s).
  { unfold exec. rewrite Hx. cbn [truthy Z.eqb negb orb].
    rewrite lowBitsOf_4.
    replace (A s mod 16 >? 9) with false
      by (symmetry; rewrite Z.gtb_ltb; apply Z.ltb_ge; exact Hlo).
    cbv zeta. rewrite Hc. cbn [truthy Z.eqb negb orb].
    unfold highBitsOf. change (8 - 4) with 4.
    rewrite Z.shiftr_div_pow2 by lia. change (2 ^ 4) with 16.
    replace (A s / 16 >? 9) with false
      by (symmetry; rewrite Z.gtb_ltb; apply Z.ltb_ge; exact Hhi).
    reflexivity. }
  rewrite Hdaa.
  destruct (getFlag_updateFlags (A s) s) as (_ & _ & _ & -> & ->).
  rewrite A_updateFlags. repeat split; assumption.
Qed.

(** ** Exchanges *)

(** X13: XCHG swaps DE and HL, byte for byte, and twice in a row gives
    the state back unchanged. *)
Theorem xchg_swaps_and_is_an_involution :
  forall s,
    byte_ok (D s) -> byte_ok (E s) -> byte_ok (H s) -> byte_ok (L s) ->
    _HL (exec 0xeb s) = _DE s /\ _DE (exec 0xeb s) = _HL s /\
    exec 0xeb (exec 0xeb s) = s.
Proof.
  intros s HD HE HH HL'.
  assert (Hx : exec 0xeb s = set_DE (_HL s) (set_HL (_DE s) s)).
  { change (exec 0xeb s)
      with (set_DE (of_full (full (_HL s)))
                   (set_HL (of_full (full (_DE s))) s)).
    now rewrite !of_full_full by assumption. }
  assert (Hxx : exec 0xeb (exec 0xeb s) = s).
  { rewrite Hx.
    change (exec 0xeb (set_DE (_HL s) (set_HL (_DE s) s)))
      with (set_DE (of_full (full (_DE s)))
                   (set_HL (of_full (full (_HL s)))
                           (set_DE (_HL s) (set_HL (_DE s) s)))).
    rewrite !of_full_full by assumption.
    destruct s. reflexivity. }
  split; [rewrite Hx; reflexivity|]. split; [rewrite Hx; reflexivity|].
  exact Hxx.
Qed.

(** X14: XTHL swaps HL with the word on top of the stack, touching no
    other memory cell and not the stack pointer, and twice in a row
    restores both HL and the memory. *)
Theorem xthl_swaps_and_is_an_involution :
  forall s,
    byte_ok (H s) -> byte_ok (L s) ->
    byte_ok (ram s (SP s)) -> byte_ok (ram s (SP s + 1)) ->
    let s' := exec 0xe3 s in
    HL s' = atSP s /\ atSP s' = HL s /\ SP s' = SP s /\
    (forall a, a <> SP s -> a <> SP s + 1 -> ram s' a = ram s a) /\
    _HL (exec 0xe3 s') = _HL s /\
    (forall a, ram (exec 0xe3 s') a = ram s a).
Proof.
  intros s HH HL' Hlo Hhi. cbv zeta.
  assert (Hw : word_ok (atSP s)).
  { unfold atSP, load16, word_ok. unfold byte_ok in Hlo, Hhi. lia. }
  assert (Hhl : word_ok (HL s)) by now apply full_word_ok.
  assert (H1 : HL (exec 0xe3 s) = atSP s).
  { change (HL (exec 0xe3 s)) with (full (of_full (atSP s))).
    now apply full_of_full. }
  assert (H2 : atSP (exec 0xe3 s) = HL s).
  { change (atSP (exec 0xe3 s))
      with (load16 (store16 (ram s) (SP s) (HL s)) (SP s)).
    now apply load16_store16. }
  split; [exact H1|]. split; [exact H2|]. split; [reflexivity|].
  split; [|split].
  - intros a Ha Ha1.
    change (ram (exec 0xe3 s) a) with (store16 (ram s) (SP s) (HL s) a).
    unfold store16, store8.
    replace (a =? SP s + 1) with false by (symmetry; apply Z.eqb_neq; exact Ha1).
    now replace (a =? SP s) with false by (symmetry; apply Z.eqb_neq; exact Ha).
  - change (_HL (exec 0xe3 (exec 0xe3 s)))
      with (of_full (load16 (store16 (ram s) (SP s) (full (_HL s))) (SP s))).
    now apply pushed_word_read_back.
  - intros a.
    change (ram (exec 0xe3 (exec 0xe3 s)) a)
      with (store16 (store16 (ram s) (SP s) (HL s)) (SP s)
                    (HL (exec 0xe3 s)) a).
    rewrite H1. unfold store16, store8, atSP, load16.
    unfold byte_ok in Hlo, Hhi.
    destruct (a =? SP s + 1) eqn:E1.
    + apply Z.eqb_eq in E1. subst a.
      Z.div_mod_to_equations. lia.
    + destruct (a =? SP s) eqn:E0; [|reflexivity].
      apply Z.eqb_eq in E0. subst a.
      Z.div_mod_to_equations. lia.
Qed.

End PairsAndExchanges.

Section ControlTransfers.

Context {Dev : Type}.
Implicit Types s : @cpu Dev.

(** ** Calls and returns *)

Lemma wrap16_back sp : word_ok sp -> wrap16 (wrap16 (sp - 2) + 2) = sp.
Proof.
  unfold word_ok, wrap16. intros Hsp.
  rewrite Zplus_mod_idemp_l. replace (sp - 2 + 2) with sp by lia.
  now apply Z.mod_small.
Qed.

Lemma call_shape s :
  call true s =
  set_PC (load16 (ram s) (PC s))
    (set_ram (store16 (ram s) (wrap16 (SP s - 2)) (wrap16 (PC s + 2)))
       (set_SP (wrap16 (SP s - 2)) s)).
Proof. reflexivity. Qed.

Lemma ret_after_push s sp v :
  word_ok v ->
  SP s = sp -> load16 (ram s) sp = v ->
  PC (ret true s) = v /\ SP (ret true s) = wrap16 (sp + 2).
Proof.
  intros Hv Hsp Hload.
  change (PC (ret true s)) with (load16 (ram s) (SP s)).
  change (SP (ret true s)) with (wrap16 (SP s + 2)).
  rewrite Hsp, Hload. split; reflexivity.
Qed.

(** X15: CALL (0xCD and its duplicates 0xDD, 0xED, 0xFD) jumps to its
    operand and leaves on the stack the address of the instruction after
    it; a RET (0xC9 or 0xD9) executed next comes back to that address with
    the stack pointer where it was before the call. *)
Theorem call_then_ret_comes_back :
  forall c r s,
    In c call_opcodes -> In r ret_opcodes -> word_ok (SP s) ->
    PC (exec c s) = load16 (ram s) (PC s) /\
    SP (exec c s) = wrap16 (SP s - 2) /\
    atSP (exec c s) = wrap16 (PC s + 2) /\
    PC (exec r (exec c s)) = wrap16 (PC s + 2) /\
    SP (exec r (exec c s)) = SP s.
Proof.
  intros c r s Hc Hr Hsp.
  assert (Hcall : exec c s = call true s).
  { unfold call_opcodes in Hc. cbn [In] in Hc.
    destruct Hc as [<- | [<- | [<- | [<- | []]]]]; reflexivity. }
  assert (Hret : forall s0 : @cpu Dev, exec r s0 = ret true s0).
  { intros s0. unfold ret_opcodes in Hr. cbn [In] in Hr.
    destruct Hr as [<- | [<- | []]]; reflexivity. }
  rewrite Hret, Hcall, call_shape.
  assert (Htop : load16 (store16 (ram s) (wrap16 (SP s - 2)) (wrap16 (PC s + 2)))
                        (wrap16 (SP s - 2)) = wrap16 (PC s + 2))
    by (apply load16_store16, wrap16_word).
  split; [reflexivity|]. split; [reflexivity|]. split; [exact Htop|].
  destruct (ret_after_push
              (set_PC (load16 (ram s) (PC s))
                 (set_ram (store16 (ram s) (wrap16 (SP s - 2)) (wrap16 (PC s + 2)))
                    (set_SP (wrap16 (SP s - 2)) s)))
              (wrap16 (SP s - 2)) (wrap16 (PC s + 2))
              (wrap16_word _) eq_refl Htop) as [HPC HSP].
  split; [exact HPC|]. rewrite HSP. now apply wrap16_back.
Qed.

(** X16: RST n pushes the program counter and jumps to address 8 n; a RET
    executed next comes back to the pushed address with the stack pointer
    restored. *)
Theorem rst_calls_fixed_address :
  forall op n r s,
    In (op, n) rst_opcodes -> In r ret_opcodes ->
    word_ok (PC s) -> word_ok (SP s) ->
    PC (exec op s) = 8 * n /\
    SP (exec op s) = wrap16 (SP s - 2) /\
    atSP (exec op s) = PC s /\
    PC (exec r (exec op s)) = PC s /\
    SP (exec r (exec op s)) = SP s.
Proof.
  intros op n r s Hop Hr Hpc Hsp.
  assert (Hrst : exec op s = rst n s).
  { unfold rst_opcodes in Hop. cbn [In] in Hop.
    repeat (destruct Hop as [Hop | Hop];
            [injection Hop as <- <-; reflexivity|]).
    contradiction. }
  assert (Hret : forall s0 : @cpu Dev, exec r s0 = ret true s0).
  { intros s0. unfold ret_opcodes in Hr. cbn [In] in Hr.
    destruct Hr as [<- | [<- | []]]; reflexivity. }
  rewrite Hret, Hrst.
  assert (Htop : load16 (store16 (ram s) (wrap16 (SP s - 2)) (PC s))
                        (wrap16 (SP s - 2)) = PC s)
    by (now apply load16_store16).
  split; [reflexivity|]. split; [reflexivity|]. split; [exact Htop|].
  destruct (ret_after_push (rst n s) (wrap16 (SP s - 2)) (PC s)
              Hpc eq_refl Htop) as [HPC HSP].
  split; [exact HPC|]. rewrite HSP. now apply wrap16_back.
Qed.

(** ** Conditional transfers that are taken *)

(** X17: a conditional jump whose condition holds does exactly what JMP
    does, which is to load the program counter with the little-endian word
    that follows the opcode and to change nothing else; a conditional call
    whose condition holds does exactly what CALL does. *)
Theorem taken_transfer_is_unconditional :
  forall op f t s,
    getFlag f s = t ->
    (In (op, f, t) conditional_jumps ->
     exec op s = exec 0xc3 s /\
     exec op s = set_PC (load16 (ram s) (PC s)) s) /\
    (In (op, f, t) conditional_calls -> exec op s = exec 0xcd s).
Proof.
  intros op f t s Hflag. split.
  - intros Hin. unfold conditional_jumps, conditional_transfers in Hin.
    cbn [firstn In] in Hin.
    repeat (destruct Hin as [Hin | Hin];
            [ injection Hin as <- <- <-; unfold exec; rewrite Hflag;
              split; reflexivity | ]).
    contradiction.
  - intros Hin. unfold conditional_calls, conditional_transfers in Hin.
    cbn [skipn In] in Hin.
    repeat (destruct Hin as [Hin | Hin];
            [ injection Hin as <- <- <-; unfold exec; rewrite Hflag;
              reflexivity | ]).
    contradiction.
Qed.

(** X18: a conditional return whose condition does not hold changes
    nothing at all; one whose condition holds does exactly what RET does. *)
Theorem conditional_return_semantics :
  forall op f t s,
    In (op, f, t) conditional_returns ->
    (getFlag f s <> t -> exec op s = s) /\
    (getFlag f s = t -> exec op s = exec 0xc9 s).
Proof.
  intros op f t s Hin.
  unfold conditional_returns in Hin. cbn [In] in Hin.
  destruct (getFlag_bit f s) as [Hf | Hf];
    repeat (destruct Hin as [Hin | Hin];
            [ injection Hin as <- <- <-; unfold exec; rewrite Hf;
              split; intros Hc; try reflexivity;
              try discriminate Hc; exfalso; apply Hc; reflexivity
            | ]);
    contradiction.
Qed.

(** ** Loading code *)

Lemma run_at_nil first a : run_at first [] a = None.
Proof.
  unfold run_at. cbn [List.length Z.of_nat].
  destruct (first <=? a) eqn:H1; [|reflexivity].
  apply Z.leb_le in H1. cbn [andb].
  now replace (a <? first + 0) with false by (symmetry; apply Z.ltb_ge; lia).
Qed.

Lemma load_loop_at code :
  forall orig i m a,
    load_loop orig i code m a =
    match run_at (orig + i) code a with
    | Some b => b
    | None => m a
    end.
Proof.
  induction code as [|b rest IH]; intros orig i m a.
  - now rewrite run_at_nil.
  - cbn [load_loop]. rewrite IH. unfold run_at, store8.
    cbn [List.length]. rewrite Nat2Z.inj_succ.
    destruct (Z.eq_dec a (orig + i)) as [-> | Hne].
    + replace (orig + (i + 1) <=? orig + i) with false
        by (symmetry; apply Z.leb_gt; lia).
      rewrite Z.leb_refl, Z.eqb_refl. cbn [andb].
      replace (orig + i <? orig + i + Z.succ (Z.of_nat (List.length rest)))
        with true by (symmetry; apply Z.ltb_lt; lia).
      now rewrite Z.sub_diag.
    + replace (a =? orig + i) with false by (symmetry; apply Z.eqb_neq; exact Hne).
      destruct (orig + (i + 1) <=? a) eqn:Hlo.
      * apply Z.leb_le in Hlo.
        replace (orig + i <=? a) with true by (symmetry; apply Z.leb_le; lia).
        replace (a <? orig + i + Z.succ (Z.of_nat (List.length rest)))
          with (a <? orig + (i + 1) + Z.of_nat (List.length rest))
          by (f_equal; lia).
        cbn [andb].
        destruct (a <? orig + (i + 1) + Z.of_nat (List.length rest));
          [|reflexivity].
        replace (Z.to_nat (a - (orig + i)))
          with (S (Z.to_nat (a - (orig + (i + 1))))) by lia.
        reflexivity.
      * apply Z.leb_gt in Hlo. cbn [andb].
        replace (orig + i <=? a) with false by (symmetry; apply Z.leb_gt; lia).
        reflexivity.
Qed.

(** X19: [load] copies byte [i] of the code to address [orig + i], with no
    wrap-around of the address, leaves every other memory cell as it was,
    and changes nothing but the memory. *)
Theorem load_copies_code :
  forall orig code s,
    (forall a,
        ram (load orig code s) a =
        match run_at orig code a with
        | Some b => b
        | None => ram s a
        end) /\
    load orig code s = set_ram (ram (load orig code s)) s.
Proof.
  intros orig code s. split; [|reflexivity].
  intros a. change (ram (load orig code s) a)
    with (load_loop orig 0 code (ram s) a).
  rewrite load_loop_at. now rewrite Z.add_0_r.
Qed.

End ControlTransfers.

(** ** The hex loader *)

Lemma asciiToHex_digit n : 0 <= n < 16 -> asciiToHex (hex_digit n) = n.
Proof.
  intros Hn. apply Z.eqb_eq.
  apply (forall_below_spec 16 (fun d => asciiToHex (hex_digit d) =? d));
    [vm_compute; reflexivity | exact Hn].
Qed.

Lemma hex_digit_not_colon n : Ascii.eqb (hex_digit n) ":"%char = false.
Proof.
  unfold hex_digit.
  remember (Z.to_nat n) as k eqn:Hk. clear Hk.
  do 17 (destruct k as [|k]; [reflexivity|]).
  cbn. destruct k; reflexivity.
Qed.

(** X20: [asciiToHex] decodes the sixteen characters 0-9 and A-F to their
    value and every other character, lower-case letters included, to 0: the
    result is always between 0 and 15, and a character with a result other
    than 0 is the upper-case digit of that value. *)
Theorem asciiToHex_decodes_upper_case_digits :
  (forall c, 0 <= asciiToHex c <= 15) /\
  (forall c, asciiToHex c <> 0 -> c = hex_digit (asciiToHex c)) /\
  (forall n, 0 <= n < 16 -> asciiToHex (hex_digit n) = n).
Proof.
  split; [|split].
  - intros [[] [] [] [] [] [] [] []]; vm_compute; split; discriminate.
  - intros [[] [] [] [] [] [] [] []]; vm_compute; intros Hne;
      first [reflexivity | exfalso; apply Hne; reflexivity].
  - exact asciiToHex_digit.
Qed.

Lemma record_char_high c i st :
  ((i - 1) mod 2 =? 0) = true ->
  record_char c i st =
  mkHex (16 * asciiToHex c) (byteCount st) (adr st) (recordType st) (records st).
Proof. intros Hi. unfold record_char. now rewrite Hi. Qed.

Lemma record_loop_digit d rest i st :
  record_loop (String (hex_digit d) rest) i st
  = record_loop rest (i + 1) (record_char (hex_digit d) i st).
Proof. cbn [record_loop]. now rewrite hex_digit_not_colon. Qed.

(** X21: the eight hexadecimal digits that follow the colon are read as
    the byte count, the address with its most significant byte first, and
    the record type; reading them stores no data byte. *)
Theorem record_header_is_parsed :
  forall d1 d2 d3 d4 d5 d6 d7 d8 st,
    digits_ok [d1; d2; d3; d4; d5; d6; d7; d8] ->
    let header :=
      String (hex_digit d1) (String (hex_digit d2) (String (hex_digit d3)
        (String (hex_digit d4) (String (hex_digit d5) (String (hex_digit d6)
          (String (hex_digit d7) (String (hex_digit d8) ""))))))) in
    let st' := record_loop header 1 st in
    byteCount st' = 16 * d1 + d2 /\
    adr st' = 4096 * d3 + 256 * d4 + 16 * d5 + d6 /\
    recordType st' = 16 * d7 + d8 /\
    records st' = records st.
Proof.
  intros d1 d2 d3 d4 d5 d6 d7 d8 st Hds. cbv zeta.
  repeat match goal with
         | H : digits_ok _ |- _ => inversion H as [|? ? ? ?]; clear H; subst
         | H : Forall _ (_ :: _) |- _ => inversion H as [|? ? ? ?]; clear H; subst
         | H : Forall _ [] |- _ => clear H
         end.
  rewrite !record_loop_digit. cbn [record_loop].
  match goal with
  | |- context [byteCount ?x] =>
      assert (Hst : x =
        mkHex (16 * asciiToHex (hex_digit d7) + asciiToHex (hex_digit d8))
              (wrap8 (16 * asciiToHex (hex_digit d1) + asciiToHex (hex_digit d2)))
              (wrap16 (wrap16 ((16 * asciiToHex (hex_digit d3)
                                + asciiToHex (hex_digit d4)) * 256)
                       + (16 * asciiToHex (hex_digit d5)
                          + asciiToHex (hex_digit d6))))
              (wrap8 (16 * asciiToHex (hex_digit d7) + asciiToHex (hex_digit d8)))
              (records st)) by reflexivity;
      rewrite Hst; clear Hst
  end.
  cbn [byteCount adr recordType records].
  rewrite !asciiToHex_digit by assumption.
  unfold wrap8, wrap16.
  repeat split.
  - apply Z.mod_small. lia.
  - rewrite Zplus_mod_idemp_l. rewrite Z.mod_small by lia. lia.
  - apply Z.mod_small. lia.
Qed.

Lemma records_loop_skips_first_char fuel :
  forall c c' rest colonPos st,
    records_loop fuel (String c rest) colonPos st
    = records_loop fuel (String c' rest) colonPos st.
Proof.
  induction fuel as [|fuel IH]; intros c c' rest colonPos st; [reflexivity|].
  cbn [records_loop]. rewrite !Nat.add_1_r.
  change (contents_from (S colonPos) (String c rest))
    with (contents_from colonPos rest).
  change (contents_from (S colonPos) (String c' rest))
    with (contents_from colonPos rest).
  change (index (S colonPos) ":" (String c rest))
    with (match index colonPos ":" rest with
          | Some n => Some (S n)
          | None => None
          end).
  change (index (S colonPos) ":" (String c' rest))
    with (match index colonPos ":" rest with
          | Some n => Some (S n)
          | None => None
          end).
  destruct (index colonPos ":" rest) as [n|]; [apply IH | reflexivity].
Qed.

(** X22: the loader never looks at the first character of the file: the
    first record is taken to start at position 0 whatever stands there, so
    two files that differ only in their first character load alike. *)
Theorem loader_ignores_first_character :
  forall c c' rest m,
    loadIntelHexFile (Some (String c rest)) m
    = loadIntelHexFile (Some (String c' rest)) m.
Proof.
  intros c c' rest m. cbn [loadIntelHexFile String.length].
  now rewrite (records_loop_skips_first_char _ c c').
Qed.

(** X23: the loader returns for every file: its loops always end.  It
    reports failure exactly when the file cannot be opened, and then leaves
    the memory as it was. *)
Theorem loader_always_returns :
  forall file m,
    exists ok m',
      loadIntelHexFile file m = Some (ok, m') /\
      (ok = false <-> file = None) /\
      (ok = false -> m' = m).
Proof.
  intros [contents|] m.
  - cbn [loadIntelHexFile].
    destruct (records_loop (S (String.length contents)) contents 0
                           (mkHex 0 0 0 0 [])) as [st|] eqn:Hloop.
    + exists true, (write_records (records st) m).
      split; [reflexivity|]. split; [split; discriminate | discriminate].
    + exfalso. revert Hloop. apply records_loop_terminates. lia.
  - exists false, m. split; [reflexivity|]. split; [tauto | reflexivity].
Qed.

Lemma write_record_is_load_loop second :
  forall first i m, write_record first i second m = load_loop first i second m.
Proof.
  induction second as [|b rest IH]; intros first i m; [reflexivity|].
  cbn [write_record load_loop]. apply IH.
Qed.

(** X24: writing the records to memory leaves at each address the byte of
    the last run, in increasing order of start address, that reaches the
    address (byte [i] of a run goes to its start address plus [i], without
    wrap-around), and leaves an address that no run reaches as it was. *)
Theorem write_records_last_run_wins :
  forall runs m a,
    write_records runs m a =
    match written_at runs a with
    | Some b => b
    | None => m a
    end.
Proof.
  induction runs as [|[first run] rest IH]; intros m a; [reflexivity|].
  cbn [write_records written_at]. rewrite IH.
  destruct (written_at rest a) as [b|]; [reflexivity|].
  rewrite write_record_is_load_loop, load_loop_at. now rewrite Z.add_0_r.
Qed.

Lemma keys_increasing_tail k v rest :
  keys_increasing ((k, v) :: rest) -> keys_increasing rest.
Proof. cbn [keys_increasing]. tauto. Qed.

Lemma records_push_head adr val runs :
  match records_push adr val runs with
  | [] => False
  | (k, _) :: _ =>
      k = adr \/ match runs with
                 | [] => False
                 | (k0, _) :: _ => k = k0 /\ k0 < adr
                 end
  end.
Proof.
  destruct runs as [|[k0 v0] rest]; cbn [records_push]; [now left|].
  destruct (adr <? k0) eqn:Hlt; [now left|].
  destruct (adr =? k0) eqn:Heq.
  - left. apply Z.eqb_eq in Heq. now symmetry.
  - right. apply Z.ltb_ge in Hlt. apply Z.eqb_neq in Heq. split; [reflexivity | lia].
Qed.

Lemma records_push_keeps_order adr val runs :
  keys_increasing runs -> keys_increasing (records_push adr val runs).
Proof.
  induction runs as [|[k v] rest IH]; intros Hinc; [cbn; tauto|].
  cbn [records_push].
  destruct (adr <? k) eqn:Hlt.
  - apply Z.ltb_lt in Hlt. cbn [keys_increasing] in *. tauto.
  - destruct (adr =? k) eqn:Heq.
    + cbn [keys_increasing] in *. exact Hinc.
    + apply Z.ltb_ge in Hlt. apply Z.eqb_neq in Heq.
      pose proof (records_push_head adr val rest) as Hhead.
      specialize (IH (keys_increasing_tail _ _ _ Hinc)).
      cbn [keys_increasing] in Hinc. destruct Hinc as [Hk _].
      destruct (records_push adr val rest) as [|[k1 v1] rest1] eqn:Hpush;
        [contradiction|].
      change (k < k1 /\ keys_increasing ((k1, v1) :: rest1)).
      split; [|exact IH].
      destruct Hhead as [-> | Hhead]; [lia|].
      destruct rest as [|[k0 v0] rest0]; [contradiction|].
      destruct Hhead as [-> _]. exact Hk.
Qed.

Lemma records_find_below adr runs :
  keys_increasing runs ->
  match runs with
  | [] => True
  | (k, _) :: _ => adr < k
  end ->
  records_find adr runs = [].
Proof.
  induction runs as [|[k v] rest IH]; intros Hinc Hlt; [reflexivity|].
  cbn [records_find].
  replace (adr =? k) with false by (symmetry; apply Z.eqb_neq; lia).
  apply IH; [now apply keys_increasing_tail in Hinc|].
  cbn [keys_increasing] in Hinc. destruct rest as [|[k' v'] rest']; [exact I|].
  lia.
Qed.

(** X25: the records form a map from start address to run, kept in
    increasing order of address: pushing a byte for an address appends it
    to the run of that address (a new run if there was none), so that
    records sharing a start address are merged in the order of parsing, and
    leaves the run of every other address as it was. *)
Theorem records_push_appends_to_its_run :
  forall adr val runs,
    keys_increasing runs ->
    keys_increasing (records_push adr val runs) /\
    records_find adr (records_push adr val runs)
    = records_find adr runs ++ [val] /\
    (forall k, k <> adr ->
               records_find k (records_push adr val runs)
               = records_find k runs).
Proof.
  intros adr val runs Hinc.
  split; [now apply records_push_keeps_order|].
  induction runs as [|[k v] rest IH].
  - cbn [records_push records_find]. rewrite Z.eqb_refl. split; [reflexivity|].
    intros k Hk.
    now replace (k =? adr) with false by (symmetry; apply Z.eqb_neq; exact Hk).
  - cbn [records_push].
    destruct (adr <? k) eqn:Hlt.
    + apply Z.ltb_lt in Hlt. split.
      * cbn [records_find]. rewrite Z.eqb_refl.
        replace (adr =? k) with false by (symmetry; apply Z.eqb_neq; lia).
        rewrite (records_find_below adr rest);
          [reflexivity | now apply keys_increasing_tail in Hinc |].
        cbn [keys_increasing] in Hinc.
        destruct rest as [|[k' v'] rest']; [exact I | lia].
      * intros k0 Hk0. cbn [records_find].
        now replace (k0 =? adr) with false
          by (symmetry; apply Z.eqb_neq; exact Hk0).
    + destruct (adr =? k) eqn:Heq.
      * apply Z.eqb_eq in Heq. subst k. split.
        -- cbn [records_find]. now rewrite Z.eqb_refl.
        -- intros k0 Hk0. cbn [records_find].
           now replace (k0 =? adr) with false
             by (symmetry; apply Z.eqb_neq; exact Hk0).
      * destruct (IH (keys_increasing_tail _ _ _ Hinc)) as [IH1 IH2]. split.
        -- cbn [records_find]. rewrite Heq. exact IH1.
        -- intros k0 Hk0. cbn [records_find].
           destruct (k0 =? k); [reflexivity | now apply IH2].
Qed.

Section Interrupts.

Context {Dev : Type}.
Implicit Types s : @cpu Dev.

(** ** The interrupt latch *)

(** X26: [interrupt] does nothing while interrupts are disabled; while they
    are enabled it latches the vector, marks the interrupt pending and
    disables interrupts.  A second call right after the first is therefore
    dropped, whichever state the first was made in. *)
Theorem interrupt_latches_once :
  forall s v1 v2,
    interrupt v2 (interrupt v1 s) = interrupt v1 s /\
    (interruptsEnabled s = false -> interrupt v1 s = s) /\
    (interruptsEnabled s = true ->
     interruptPending (interrupt v1 s) = true /\
     interruptVector (interrupt v1 s) = v1 /\
     interruptsEnabled (interrupt v1 s) = false /\
     halted (interrupt v1 s) = halted s).
Proof.
  intros s v1 v2. unfold interrupt at 2 3 4 5 6 7 8.
  destruct (interruptsEnabled s) eqn:Hie.
  - split; [reflexivity|]. split; [discriminate|].
    intros _. repeat split.
  - split; [unfold interrupt; now rewrite Hie|].
    split; [reflexivity | discriminate].
Qed.

(** ** What instructions leave alone *)

Lemma control_setFlag f c s : control (setFlag f c s) = control s.
Proof. destruct c; reflexivity. Qed.

Lemma control_set_r8 r v s : control (set_r8 r v s) = control s.
Proof. destruct r; reflexivity. Qed.

Lemma control_set_r16 r v s : control (set_r16 r v s) = control s.
Proof. destruct r; reflexivity. Qed.

Lemma control_set_ram m s : control (set_ram m s) = control s.
Proof. reflexivity. Qed.

Lemma control_set_PC v s : control (set_PC v s) = control s.
Proof. reflexivity. Qed.

Lemma control_set_dev d s : control (set_dev d s) = control s.
Proof. reflexivity. Qed.

Lemma control_updateFlags x s : control (updateFlags x s) = control s.
Proof. unfold updateFlags. cbv zeta. now rewrite !control_setFlag. Qed.

Lemma control_inr r s : control (inr r s) = control s.
Proof.
  unfold inr. cbv zeta.
  now rewrite control_updateFlags, control_set_r8, control_setFlag.
Qed.

Lemma control_dcr r s : control (dcr r s) = control s.
Proof.
  unfold dcr. cbv zeta.
  now rewrite control_updateFlags, control_set_r8, control_setFlag.
Qed.

Lemma control_dad r s : control (dad r s) = control s.
Proof. unfold dad. cbv zeta. now rewrite control_set_r16, control_setFlag. Qed.

Lemma control_add r w s : control (add r w s) = control s.
Proof.
  unfold add, updateAuxCarryFlag. cbv zeta.
  now rewrite control_updateFlags, control_set_r8, !control_setFlag.
Qed.

Lemma control_sub r w s : control (sub r w s) = control s.
Proof.
  unfold sub. cbv zeta.
  now rewrite control_updateFlags, control_set_r8, control_setFlag.
Qed.

Lemma control_cmp r s : control (cmp r s) = control s.
Proof. unfold cmp. cbv zeta. now rewrite control_set_r8, control_sub. Qed.

Lemma control_logicAnd r s : control (logicAnd r s) = control s.
Proof.
  unfold logicAnd. cbv zeta.
  now rewrite control_setFlag, control_updateFlags, control_set_r8.
Qed.

Lemma control_logicOr r s : control (logicOr r s) = control s.
Proof.
  unfold logicOr. cbv zeta.
  now rewrite control_setFlag, control_updateFlags, control_set_r8.
Qed.

Lemma control_logicXor r s : control (logicXor r s) = control s.
Proof.
  unfold logicXor. cbv zeta.
  now rewrite control_setFlag, control_updateFlags, control_set_r8.
Qed.

Lemma control_push v s : control (push v s) = control s.
Proof. reflexivity. Qed.

Lemma control_pop r s : control (pop r s) = control s.
Proof. destruct r; reflexivity. Qed.

Lemma control_rst n s : control (rst n s) = control s.
Proof. reflexivity. Qed.

Lemma control_jmp c s : control (jmp c s) = control s.
Proof. destruct c; reflexivity. Qed.

Lemma control_ret c s : control (ret c s) = control s.
Proof. destruct c; [apply control_pop | reflexivity]. Qed.

Lemma control_call c s : control (call c s) = control s.
Proof. destruct c; reflexivity. Qed.

Lemma exec_control instr s :
  control (exec instr s) =
  if instr =? 0x76
  then (true, interruptsEnabled s, interruptPending s, interruptVector s)
  else if instr =? 0xf3
  then (halted s, false, interruptPending s, interruptVector s)
  else if instr =? 0xfb
  then (halted s, true, interruptPending s, interruptVector s)
  else control s.
Proof.
  destruct instr as [|p|p]; [reflexivity| |reflexivity].
  do 8 (try destruct p as [p|p|]);
    cbn [Z.eqb Pos.eqb];
    unfold exec, get8, get16;
    repeat match goal with
           | |- context [portInputHandler ?a ?b ?c] =>
               destruct (portInputHandler a b c)
           | |- context [if ?c then _ else _] => destruct c
           end;
    repeat first
      [ rewrite control_setFlag | rewrite control_set_r8
      | rewrite control_set_r16 | rewrite control_set_ram
      | rewrite control_set_PC | rewrite control_set_dev
      | rewrite control_updateFlags | rewrite control_inr
      | rewrite control_dcr | rewrite control_dad | rewrite control_add
      | rewrite control_sub | rewrite control_cmp | rewrite control_logicAnd
      | rewrite control_logicOr | rewrite control_logicXor
      | rewrite control_push | rewrite control_pop | rewrite control_rst
      | rewrite control_jmp | rewrite control_ret | rewrite control_call ];
    reflexivity.
Qed.

Lemma exec_keeps_interrupt_latch_aux instr s :
  interruptPending (exec instr s) = interruptPending s /\
  interruptVector (exec instr s) = interruptVector s.
Proof.
  pose proof (exec_control instr s) as Hc. unfold control in Hc.
  destruct (instr =? 0x76); [|destruct (instr =? 0xf3); [|destruct (instr =? 0xfb)]];
    injection Hc as _ _ Hip Hiv; now split.
Qed.

(** X27: no instruction touches the interrupt latch: [exec] leaves
    [interruptPending] and the latched vector as they were, whatever the
    opcode.  Only HLT changes [halted] (and it sets it), and only DI and EI
    change [interruptsEnabled]. *)
Theorem exec_keeps_interrupt_latch :
  forall instr s,
    interruptPending (exec instr s) = interruptPending s /\
    interruptVector (exec instr s) = interruptVector s /\
    (instr <> 0x76 -> halted (exec instr s) = halted s) /\
    (instr <> 0xf3 -> instr <> 0xfb ->
     interruptsEnabled (exec instr s) = interruptsEnabled s) /\
    halted (exec 0x76 s) = true /\
    interruptsEnabled (exec 0xf3 s) = false /\
    interruptsEnabled (exec 0xfb s) = true.
Proof.
  intros instr s. pose proof (exec_control instr s) as Hc.
  unfold control in Hc.
  destruct (instr =? 0x76) eqn:E1;
    [|destruct (instr =? 0xf3) eqn:E2; [|destruct (instr =? 0xfb) eqn:E3]];
    injection Hc as Hh Hie Hip Hiv;
    (split; [exact Hip|]); (split; [exact Hiv|]);
    (split; [intros Hne|]);
    try (split; [intros Hne1 Hne2|]);
    try (repeat split; reflexivity);
    try assumption.
  all: try (apply Z.eqb_eq in E1; contradiction).
  all: try (apply Z.eqb_eq in E2; contradiction).
  all: try (apply Z.eqb_eq in E3; contradiction).
Qed.

(** X28: [step] takes a pending interrupt exactly when interrupts are
    enabled, and then clears the latch and the halted state; while
    interrupts are disabled a pending interrupt and its vector stay latched
    across the step, whatever instruction the step executes. *)
Theorem step_takes_or_keeps_latch :
  forall s,
    interruptPending s = true ->
    (interruptsEnabled s = true ->
     interruptPending (step s) = false /\ halted (step s) = false) /\
    (interruptsEnabled s = false ->
     interruptPending (step s) = true /\
     interruptVector (step s) = interruptVector s).
Proof.
  intros s Hip. split; intros Hie; unfold step; rewrite Hie, Hip; cbn [andb].
  - split; reflexivity.
  - destruct (halted s); cbn [negb]; [now split|].
    unfold get8.
    destruct (exec_keeps_interrupt_latch_aux (ram s (PC s))
                (set_PC (wrap16 (PC s + 1)) s)) as [H1 H2].
    rewrite H1, H2. now split.
Qed.

End Interrupts.

Section FixedBits.

Context {Dev : Type}.
Implicit Types s : @cpu Dev.

(** ** The fixed bits of the flags register *)

Lemma fixed3_setFlag f c s :
  flag_pos f = true ->
  (f =? 1) || (f =? 3) || (f =? 5) = false ->
  fixed3 (setFlag f c s) = fixed3 s.
Proof.
  intros Hf Hne. unfold fixed3.
  apply orb_false_iff in Hne as [Hne H5].
  apply orb_false_iff in Hne as [H1 H3].
  rewrite !testbit_setFlag by (exact Hf || reflexivity).
  rewrite (Z.eqb_sym 1 f), (Z.eqb_sym 3 f), (Z.eqb_sym 5 f), H1, H3, H5.
  reflexivity.
Qed.

Lemma fixed3_set_r8 r v s : r <> rFlags -> fixed3 (set_r8 r v s) = fixed3 s.
Proof. intros Hr. destruct r; try reflexivity; contradiction. Qed.

Lemma fixed3_set_r16 r v s : r <> rPSW -> fixed3 (set_r16 r v s) = fixed3 s.
Proof. intros Hr. destruct r; try reflexivity; contradiction. Qed.

Lemma fixed3_updateFlags x s : fixed3 (updateFlags x s) = fixed3 s.
Proof.
  unfold updateFlags. cbv zeta. now rewrite !fixed3_setFlag by reflexivity.
Qed.

Lemma fixed3_inr r s : r <> rFlags -> fixed3 (inr r s) = fixed3 s.
Proof.
  intros Hr. unfold inr. cbv zeta.
  rewrite fixed3_updateFlags, fixed3_set_r8 by exact Hr.
  now rewrite fixed3_setFlag by reflexivity.
Qed.

Lemma fixed3_dcr r s : r <> rFlags -> fixed3 (dcr r s) = fixed3 s.
Proof.
  intros Hr. unfold dcr. cbv zeta.
  rewrite fixed3_updateFlags, fixed3_set_r8 by exact Hr.
  now rewrite fixed3_setFlag by reflexivity.
Qed.

Lemma fixed3_dad r s : fixed3 (dad r s) = fixed3 s.
Proof.
  unfold dad. cbv zeta. rewrite fixed3_set_r16 by discriminate.
  now rewrite fixed3_setFlag by reflexivity.
Qed.

Lemma fixed3_add r w s : fixed3 (add r w s) = fixed3 s.
Proof.
  unfold add, updateAuxCarryFlag. cbv zeta.
  rewrite fixed3_updateFlags, fixed3_set_r8 by discriminate.
  now rewrite !fixed3_setFlag by reflexivity.
Qed.

Lemma fixed3_sub r w s : fixed3 (sub r w s) = fixed3 s.
Proof.
  unfold sub. cbv zeta.
  rewrite fixed3_updateFlags, fixed3_set_r8 by discriminate.
  now rewrite !fixed3_setFlag by reflexivity.
Qed.

Lemma fixed3_cmp r s : fixed3 (cmp r s) = fixed3 s.
Proof.
  unfold cmp. cbv zeta. rewrite fixed3_set_r8 by discriminate.
  apply fixed3_sub.
Qed.

Lemma fixed3_logicAnd r s : fixed3 (logicAnd r s) = fixed3 s.
Proof.
  unfold logicAnd. cbv zeta. rewrite fixed3_setFlag by reflexivity.
  now rewrite fixed3_updateFlags, fixed3_set_r8 by discriminate.
Qed.

Lemma fixed3_logicOr r s : fixed3 (logicOr r s) = fixed3 s.
Proof.
  unfold logicOr. cbv zeta. rewrite fixed3_setFlag by reflexivity.
  now rewrite fixed3_updateFlags, fixed3_set_r8 by discriminate.
Qed.

Lemma fixed3_logicXor r s : fixed3 (logicXor r s) = fixed3 s.
Proof.
  unfold logicXor. cbv zeta. rewrite fixed3_setFlag by reflexivity.
  now rewrite fixed3_updateFlags, fixed3_set_r8 by discriminate.
Qed.

Lemma fixed3_jmp c s : fixed3 (jmp c s) = fixed3 s.
Proof. destruct c; reflexivity. Qed.

Lemma fixed3_call c s : fixed3 (call c s) = fixed3 s.
Proof. destruct c; reflexivity. Qed.

Lemma fixed3_pop r s : fixed3 (pop r s) = (true, false, false).
Proof.
  destruct (pop_flags_shape r s) as [f0 Hf]. unfold fixed3. rewrite Hf.
  destruct (forced_chain_fixed f0) as (H1 & H3 & H5). now rewrite H1, H3, H5.
Qed.

Lemma fixed3_ret c s :
  fixed3 (ret c s) = if c then (true, false, false) else fixed3 s.
Proof. destruct c; [apply fixed3_pop | reflexivity]. Qed.

Lemma exec_fixed3 instr s :
  fixed3 (exec instr s) = fixed3 s \/
  fixed3 (exec instr s) = (true, false, false).
Proof.
  destruct instr as [|p|p]; [left; reflexivity| |left; reflexivity].
  do 8 (try destruct p as [p|p|]);
    unfold exec, get8, get16;
    repeat match goal with
           | |- context [portInputHandler ?a ?b ?c] =>
               destruct (portInputHandler a b c)
           | |- context [if ?c then _ else _] => destruct c
           end;
    repeat first
      [ rewrite fixed3_setFlag by reflexivity
      | rewrite fixed3_set_r8 by discriminate
      | rewrite fixed3_set_r16 by discriminate
      | rewrite fixed3_updateFlags
      | rewrite fixed3_inr by discriminate
      | rewrite fixed3_dcr by discriminate
      | rewrite fixed3_dad | rewrite fixed3_add | rewrite fixed3_sub
      | rewrite fixed3_cmp | rewrite fixed3_logicAnd
      | rewrite fixed3_logicOr | rewrite fixed3_logicXor
      | rewrite fixed3_jmp | rewrite fixed3_call
      | rewrite fixed3_pop | rewrite fixed3_ret ];
    repeat match goal with
           | |- context [if ?c then _ else _] => destruct c
           end;
    first [left; reflexivity | right; reflexivity].
Qed.

Lemma fixed_bits_fixed3 s :
  fixed_bits (flags s) <-> fixed3 s = (true, false, false).
Proof.
  unfold fixed_bits, fixed3. split.
  - intros (H1 & H3 & H5). now rewrite H1, H3, H5.
  - intros Heq. injection Heq as H1 H3 H5. now repeat split.
Qed.

Lemma exec_keeps_fixed_bits instr s :
  fixed_bits (flags s) -> fixed_bits (flags (exec instr s)).
Proof.
  rewrite !fixed_bits_fixed3. intros Hs.
  destruct (exec_fixed3 instr s) as [-> | ->]; [exact Hs | reflexivity].
Qed.

Lemma run_action_keeps_fixed_bits a s :
  fixed_bits (flags s) -> fixed_bits (flags (run_action a s)).
Proof.
  intros Hs. destruct a as [|v|orig code]; cbn [run_action].
  - unfold step.
    destruct (interruptsEnabled s && interruptPending s).
    + change (fixed_bits (flags (exec (interruptVector s) s))).
      now apply exec_keeps_fixed_bits.
    + destruct (negb (halted s)); [|exact Hs].
      unfold get8. now apply exec_keeps_fixed_bits.
  - unfold interrupt. destruct (interruptsEnabled s); exact Hs.
  - exact Hs.
Qed.

(** X29: the fixed bits of the flags register (bit 1 set, bits 3 and 5
    clear) are an invariant of the processor: the constructor establishes
    them, every instruction keeps them, and so does every step, interrupt
    request and load; they hold after any sequence of host actions on a
    constructed processor. *)
Theorem fixed_bits_always_hold :
  (forall instr s,
      fixed_bits (flags s) -> fixed_bits (flags (exec instr s))) /\
  (forall a s,
      fixed_bits (flags s) -> fixed_bits (flags (run_action a s))) /\
  (forall pih poh ram0 (d : Dev) actions,
      fixed_bits (flags (run actions (cpu_new pih poh ram0 d)))).
Proof.
  split; [exact exec_keeps_fixed_bits|].
  split; [exact run_action_keeps_fixed_bits|].
  intros pih poh ram0 d actions.
  assert (Hnew : fixed_bits (flags (cpu_new pih poh ram0 d)))
    by (repeat split).
  revert Hnew. generalize (cpu_new pih poh ram0 d).
  induction actions as [|a rest IH]; intros s Hs; cbn [run]; [exact Hs|].
  apply IH. now apply run_action_keeps_fixed_bits.
Qed.

End FixedBits.

Section Ranges.

Context {Dev : Type}.
Implicit Types s : @cpu Dev.

(** ** Registers and memory stay in range *)

Lemma byte_wrap8 x : byte_ok (wrap8 x).
Proof. unfold byte_ok, wrap8. apply Z.mod_pos_bound. lia. Qed.

Lemma of_full_bytes v : byte_ok (low (of_full v)) /\ byte_ok (high (of_full v)).
Proof. split; apply byte_wrap8. Qed.

Lemma ok_A s : cpu_ok s -> byte_ok (A s).
Proof. unfold cpu_ok, regs_ok. tauto. Qed.

Lemma ok_ram s a : cpu_ok s -> byte_ok (ram s a).
Proof. unfold cpu_ok. intros (_ & _ & _ & Hr). apply Hr. Qed.

Lemma ok_get_r8 r s : cpu_ok s -> byte_ok (get_r8 r s).
Proof.
  intros Hs. destruct r; cbn [get_r8];
    try (unfold cpu_ok, regs_ok in Hs; tauto).
  now apply ok_ram.
Qed.

Lemma ok_load16 s a : cpu_ok s -> word_ok (load16 (ram s) a).
Proof.
  intros Hs. pose proof (ok_ram s a Hs). pose proof (ok_ram s (a + 1) Hs).
  unfold load16, word_ok, byte_ok in *. lia.
Qed.

Lemma ok_atSP s : cpu_ok s -> word_ok (atSP s).
Proof. apply ok_load16. Qed.

Lemma ok_get_r16 r s : cpu_ok s -> word_ok (get_r16 r s).
Proof.
  intros Hs. unfold cpu_ok, regs_ok in Hs.
  destruct r; cbn [get_r16]; try tauto; apply full_word_ok; tauto.
Qed.

Lemma ok_BC s : cpu_ok s -> word_ok (BC s).
Proof. apply (ok_get_r16 rBC). Qed.

Lemma ok_DE s : cpu_ok s -> word_ok (DE s).
Proof. apply (ok_get_r16 rDE). Qed.

Lemma ok_HL s : cpu_ok s -> word_ok (HL s).
Proof. apply (ok_get_r16 rHL). Qed.

Lemma ok_store8 m a v :
  (forall x, byte_ok (m x)) -> byte_ok v -> forall x, byte_ok (store8 m a v x).
Proof. intros Hm Hv x. unfold store8. destruct (x =? a); auto. Qed.

Lemma ok_store16 m a v :
  (forall x, byte_ok (m x)) -> forall x, byte_ok (store16 m a v x).
Proof.
  intros Hm. unfold store16.
  apply ok_store8; [apply ok_store8; [exact Hm|]|]; apply byte_wrap8.
Qed.

Lemma ok_set_r8 r v s : byte_ok v -> cpu_ok s -> cpu_ok (set_r8 r v s).
Proof.
  intros Hv (Hregs & Hsp & Hpc & Hram). unfold regs_ok in Hregs.
  destruct r; (split; [unfold regs_ok; cbn; tauto|]);
    (split; [exact Hsp|]); (split; [exact Hpc|]); try exact Hram.
  cbn [set_r8 set_ram ram]. now apply ok_store8.
Qed.

Lemma ok_setFlag f c s : cpu_ok s -> cpu_ok (setFlag f c s).
Proof.
  intros Hs. rewrite setFlag_only_flags.
  apply ok_set_r8; [apply flags_setFlag_byte | exact Hs].
Qed.

Lemma ok_set_r16 r v s : word_ok v -> cpu_ok s -> cpu_ok (set_r16 r v s).
Proof.
  intros Hv (Hregs & Hsp & Hpc & Hram). unfold regs_ok in Hregs.
  destruct (of_full_bytes v) as [Hlo Hhi].
  destruct r; (split; [unfold regs_ok; cbn; tauto|]);
    cbn; tauto.
Qed.

Lemma ok_set_PC v s : word_ok v -> cpu_ok s -> cpu_ok (set_PC v s).
Proof. apply (ok_set_r16 rPC). Qed.

Lemma ok_set_ram8 a v s :
  byte_ok v -> cpu_ok s -> cpu_ok (set_ram (store8 (ram s) a v) s).
Proof.
  intros Hv (Hregs & Hsp & Hpc & Hram).
  split; [exact Hregs|]. split; [exact Hsp|]. split; [exact Hpc|].
  cbn [set_ram ram]. now apply ok_store8.
Qed.

Lemma ok_set_ram16 a v s :
  cpu_ok s -> cpu_ok (set_ram (store16 (ram s) a v) s).
Proof.
  intros (Hregs & Hsp & Hpc & Hram).
  split; [exact Hregs|]. split; [exact Hsp|]. split; [exact Hpc|].
  cbn [set_ram ram]. now apply ok_store16.
Qed.

Lemma ok_set_halted b s : cpu_ok s -> cpu_ok (set_halted b s).
Proof. intros Hs. exact Hs. Qed.

Lemma ok_set_interruptsEnabled b s :
  cpu_ok s -> cpu_ok (set_interruptsEnabled b s).
Proof. intros Hs. exact Hs. Qed.

Lemma ok_set_interruptPending b s :
  cpu_ok s -> cpu_ok (set_interruptPending b s).
Proof. intros Hs. exact Hs. Qed.

Lemma ok_set_dev d s : cpu_ok s -> cpu_ok (set_dev d s).
Proof. intros Hs. exact Hs. Qed.

Lemma ok_updateFlags x s : cpu_ok s -> cpu_ok (updateFlags x s).
Proof.
  intros Hs. unfold updateFlags. cbv zeta. now repeat apply ok_setFlag.
Qed.

Lemma ok_inr r s : cpu_ok s -> cpu_ok (inr r s).
Proof.
  intros Hs. unfold inr. cbv zeta. apply ok_updateFlags.
  apply ok_set_r8; [apply byte_wrap8 | now apply ok_setFlag].
Qed.

Lemma ok_dcr r s : cpu_ok s -> cpu_ok (dcr r s).
Proof.
  intros Hs. unfold dcr. cbv zeta. apply ok_updateFlags.
  apply ok_set_r8; [apply byte_wrap8 | now apply ok_setFlag].
Qed.

Lemma ok_dad r s : cpu_ok s -> cpu_ok (dad r s).
Proof.
  intros Hs. unfold dad. cbv zeta.
  apply ok_set_r16; [apply wrap16_word | now apply ok_setFlag].
Qed.

Lemma ok_add r w s : cpu_ok s -> cpu_ok (add r w s).
Proof.
  intros Hs. unfold add, updateAuxCarryFlag. cbv zeta. apply ok_updateFlags.
  apply ok_set_r8; [apply byte_wrap8 | now repeat apply ok_setFlag].
Qed.

Lemma ok_sub r w s : cpu_ok s -> cpu_ok (sub r w s).
Proof.
  intros Hs. unfold sub. cbv zeta. apply ok_updateFlags.
  apply ok_set_r8; [apply byte_wrap8 | now apply ok_setFlag].
Qed.

Lemma ok_cmp r s : cpu_ok s -> cpu_ok (cmp r s).
Proof.
  intros Hs. unfold cmp. cbv zeta.
  apply ok_set_r8; [now apply ok_A | now apply ok_sub].
Qed.

Lemma ok_logicAnd r s : cpu_ok s -> cpu_ok (logicAnd r s).
Proof.
  intros Hs. unfold logicAnd. cbv zeta. apply ok_setFlag, ok_updateFlags.
  apply ok_set_r8; [apply byte_wrap8 | exact Hs].
Qed.

Lemma ok_logicOr r s : cpu_ok s -> cpu_ok (logicOr r s).
Proof.
  intros Hs. unfold logicOr. cbv zeta. apply ok_setFlag, ok_updateFlags.
  apply ok_set_r8; [apply byte_wrap8 | exact Hs].
Qed.

Lemma ok_logicXor r s : cpu_ok s -> cpu_ok (logicXor r s).
Proof.
  intros Hs. unfold logicXor. cbv zeta. apply ok_setFlag, ok_updateFlags.
  apply ok_set_r8; [apply byte_wrap8 | exact Hs].
Qed.

Lemma ok_push v s : cpu_ok s -> cpu_ok (push v s).
Proof.
  intros Hs. unfold push, set_atSP. cbv zeta.
  apply ok_set_ram16. apply (ok_set_r16 rSP); [apply wrap16_word | exact Hs].
Qed.

Lemma ok_pop r s : cpu_ok s -> cpu_ok (pop r s).
Proof.
  intros Hs. unfold pop. cbv zeta. repeat apply ok_setFlag.
  apply (ok_set_r16 rSP); [apply wrap16_word|].
  apply ok_set_r16; [now apply ok_atSP | exact Hs].
Qed.

Lemma ok_rst n s : word_ok (8 * n) -> cpu_ok s -> cpu_ok (rst n s).
Proof.
  intros Hn Hs. unfold rst. cbv zeta.
  apply ok_set_PC; [exact Hn | now apply ok_push].
Qed.

Lemma ok_jmp c s : cpu_ok s -> cpu_ok (jmp c s).
Proof.
  intros Hs. unfold jmp, get16.
  assert (H1 : cpu_ok (set_PC (wrap16 (PC s + 2)) s))
    by (apply ok_set_PC; [apply wrap16_word | exact Hs]).
  destruct c; [|exact H1].
  apply ok_set_PC; [now apply ok_load16 | exact H1].
Qed.

Lemma ok_ret c s : cpu_ok s -> cpu_ok (ret c s).
Proof. intros Hs. destruct c; [now apply ok_pop | exact Hs]. Qed.

Lemma ok_call c s : cpu_ok s -> cpu_ok (call c s).
Proof.
  intros Hs. unfold call, get16.
  assert (H1 : cpu_ok (set_PC (wrap16 (PC s + 2)) s))
    by (apply ok_set_PC; [apply wrap16_word | exact Hs]).
  destruct c; [|exact H1].
  apply ok_set_PC; [now apply ok_load16 | now apply ok_push].
Qed.

Lemma exec_keeps_ranges instr s : cpu_ok s -> cpu_ok (exec instr s).
Proof.
  intros Hs.
  destruct instr as [|p|p]; [exact Hs| |exact Hs].
  do 8 (try destruct p as [p|p|]);
    unfold exec, get8, get16; cbv zeta;
    repeat match goal with
           | |- context [portInputHandler ?a ?b ?c] =>
               destruct (portInputHandler a b c)
           | |- context [if ?c then _ else _] => destruct c
           end;
    repeat lazymatch goal with
           | |- cpu_ok ?x =>
               lazymatch x with
               | s => exact Hs
               | inr _ _ => apply ok_inr
               | dcr _ _ => apply ok_dcr
               | dad _ _ => apply ok_dad
               | add _ _ _ => apply ok_add
               | sub _ _ _ => apply ok_sub
               | cmp _ _ => apply ok_cmp
               | logicAnd _ _ => apply ok_logicAnd
               | logicOr _ _ => apply ok_logicOr
               | logicXor _ _ => apply ok_logicXor
               | push _ _ => apply ok_push
               | pop _ _ => apply ok_pop
               | rst _ _ => apply ok_rst
               | jmp _ _ => apply ok_jmp
               | ret _ _ => apply ok_ret
               | call _ _ => apply ok_call
               | updateFlags _ _ => apply ok_updateFlags
               | setFlag _ _ _ => apply ok_setFlag
               | set_r8 _ _ _ => apply ok_set_r8
               | set_r16 _ _ _ => apply ok_set_r16
               | set_PC _ _ => apply ok_set_PC
               | set_ram (store8 _ _ _) _ => apply ok_set_ram8
               | set_ram (store16 _ _ _) _ => apply ok_set_ram16
               | set_halted _ _ => apply ok_set_halted
               | set_interruptsEnabled _ _ => apply ok_set_interruptsEnabled
               | set_dev _ _ => apply ok_set_dev
               end
           | |- byte_ok ?x =>
               lazymatch x with
               | wrap8 _ => apply byte_wrap8
               | A _ => apply ok_A
               | ram _ _ => apply ok_ram
               | get_r8 _ _ => apply ok_get_r8
               end
           | |- word_ok ?x =>
               lazymatch x with
               | wrap16 _ => apply wrap16_word
               | load16 (ram _) _ => apply ok_load16
               | BC _ => apply ok_BC
               | DE _ => apply ok_DE
               | HL _ => apply ok_HL
               | get_r16 _ _ => apply ok_get_r16
               | _ => unfold word_ok; lia
               end
           end.
Qed.

Lemma load_loop_bytes code :
  forall orig i m,
    Forall byte_ok code -> (forall a, byte_ok (m a)) ->
    forall a, byte_ok (load_loop orig i code m a).
Proof.
  induction code as [|b rest IH]; intros orig i m Hcode Hm a; [apply Hm|].
  cbn [load_loop]. inversion Hcode as [|? ? Hb Hrest]; subst.
  apply IH; [exact Hrest|]. now apply ok_store8.
Qed.

Lemma run_action_keeps_ranges a s :
  action_ok a -> cpu_ok s -> cpu_ok (run_action a s).
Proof.
  intros Ha Hs. destruct a as [|v|orig code]; cbn [run_action].
  - unfold step.
    destruct (interruptsEnabled s && interruptPending s).
    + apply ok_set_halted, ok_set_interruptPending.
      now apply exec_keeps_ranges.
    + destruct (negb (halted s)); [|exact Hs].
      unfold get8. apply exec_keeps_ranges.
      apply ok_set_PC; [apply wrap16_word | exact Hs].
  - unfold interrupt. destruct (interruptsEnabled s); exact Hs.
  - destruct Hs as (Hregs & Hsp & Hpc & Hram).
    split; [exact Hregs|]. split; [exact Hsp|]. split; [exact Hpc|].
    cbn [load set_ram ram]. now apply load_loop_bytes.
Qed.

(** X30: registers and memory stay within their widths: if every 8-bit
    register and every memory cell holds a byte and the stack pointer and
    program counter hold 16-bit values, the same is true after any
    instruction, and after any step, interrupt request or load of bytes;
    it is true of a processor constructed over a memory of bytes, and so of
    every state reached from it. *)
Theorem machine_ranges_are_kept :
  (forall instr s, cpu_ok s -> cpu_ok (exec instr s)) /\
  (forall a s, action_ok a -> cpu_ok s -> cpu_ok (run_action a s)) /\
  (forall pih poh ram0 (d : Dev) actions,
      (forall a, byte_ok (ram0 a)) -> Forall action_ok actions ->
      cpu_ok (run actions (cpu_new pih poh ram0 d))).
Proof.
  split; [exact exec_keeps_ranges|].
  split; [exact run_action_keeps_ranges|].
  intros pih poh ram0 d actions Hram Hacts.
  assert (Hnew : cpu_ok (cpu_new pih poh ram0 d)).
  { split; [|split; [|split]].
    - unfold regs_ok, byte_ok. cbn. lia.
    - unfold word_ok. cbn. lia.
    - unfold word_ok. cbn. lia.
    - exact Hram. }
  revert Hnew. generalize (cpu_new pih poh ram0 d).
  induction Hacts as [|a rest Ha Hrest IH]; intros s Hs; cbn [run]; [exact Hs|].
  apply IH. now apply run_action_keeps_ranges.
Qed.

End Ranges.

Section PairCounters.

Context {Dev : Type}.
Implicit Types s : @cpu Dev.

(** ** 16-bit increment and decrement *)

Lemma get_set_r16 r v s :
  r <> rPSW -> word_ok v -> get_r16 r (set_r16 r v s) = v.
Proof.
  intros Hr Hv. destruct r; try contradiction; try reflexivity;
    exact (full_of_full v Hv).
Qed.

(** X5: INX and DCX add and subtract 1 from a register pair (BC, DE, HL
    or the stack pointer) modulo 65536 and leave the flags register as it
    is, also when the pair wraps around; an INX followed by the DCX of the
    same pair restores the pair. *)
Theorem inx_dcx_wrap_and_keep_flags :
  forall i d r s,
    In (i, d, r) inx_dcx ->
    get_r16 r (exec i s) = (get_r16 r s + 1) mod 65536 /\
    get_r16 r (exec d s) = (get_r16 r s - 1) mod 65536 /\
    flags (exec i s) = flags s /\ flags (exec d s) = flags s /\
    (word_ok (get_r16 r s) -> get_r16 r (exec d (exec i s)) = get_r16 r s).
Proof.
  intros i d r s Hin.
  assert (Hshape :
    r <> rPSW /\
    (forall s0 : @cpu Dev,
        exec i s0 = set_r16 r (wrap16 (get_r16 r s0 + 1)) s0 /\
        exec d s0 = set_r16 r (wrap16 (get_r16 r s0 - 1)) s0)).
  { unfold inx_dcx in Hin. cbn [In] in Hin.
    destruct Hin as [Hin | [Hin | [Hin | [Hin | []]]]];
      injection Hin as <- <- <-;
      (split; [discriminate | intros s0; split; reflexivity]). }
  destruct Hshape as [Hr Hexec].
  destruct (Hexec s) as [Hi Hd].
  destruct (Hexec (exec i s)) as [_ Hdi].
  assert (Hgi : get_r16 r (exec i s) = wrap16 (get_r16 r s + 1)).
  { rewrite Hi. apply get_set_r16; [exact Hr | apply wrap16_word]. }
  split; [exact Hgi|].
  split; [rewrite Hd; apply get_set_r16; [exact Hr | apply wrap16_word]|].
  split; [rewrite Hi; destruct r; try contradiction; reflexivity|].
  split; [rewrite Hd; destruct r; try contradiction; reflexivity|].
  intros Hw. rewrite Hdi, get_set_r16 by (exact Hr || apply wrap16_word).
  rewrite Hgi. unfold wrap16, word_ok in *.
  rewrite Zminus_mod_idemp_l.
  replace (get_r16 r s + 1 - 1) with (get_r16 r s) by lia.
  now apply Z.mod_small.
Qed.

End PairCounters.

(** * The further properties at concrete machines *)

Lemma byte_ok_A_cpu_regs : byte_ok (A cpu_regs).
Proof. unfold byte_ok. cbn. lia. Qed.

Lemma cpu_ok_cpu_regs : cpu_ok cpu_regs.
Proof.
  split; [unfold regs_ok, byte_ok; cbn; lia|].
  split; [unfold word_ok; cbn; lia|].
  split; [unfold word_ok; cbn; lia|].
  intros a. unfold byte_ok. cbn. unfold zero_ram. lia.
Qed.

Lemma setFlag_changes_one_bit_witness :
  getFlag carry (setFlag carry false cpu_regs) = 0 /\
  getFlag parity (setFlag carry false cpu_regs) = getFlag parity cpu_regs.
Proof.
  destruct (@setFlag_changes_one_bit unit parity carry false cpu_regs
              eq_refl eq_refl) as (Hset & Hother & _).
  split; [exact Hset | apply Hother; discriminate].
Defined.

Lemma cmp_compares_witness :
  A (cmp 0x12 cpu_regs) = 0x12 /\ getFlag zero (cmp 0x12 cpu_regs) = 1.
Proof.
  assert (Hr : byte_ok 0x12) by (unfold byte_ok; lia).
  destruct (@cmp_compares unit 0x12 cpu_regs Hr byte_ok_A_cpu_regs)
    as (Ha & _ & Hz & _).
  split; [exact Ha | apply Hz; reflexivity].
Defined.

Lemma add_without_carry_in_witness :
  A (add 0xf0 false cpu_regs) = 0x02 /\
  getFlag carry (add 0xf0 false cpu_regs) = 1.
Proof.
  assert (Hr : byte_ok 0xf0) by (unfold byte_ok; lia).
  destruct (@add_without_carry_in unit 0xf0 false cpu_regs Hr
              byte_ok_A_cpu_regs eq_refl) as (Ha & Hc & _).
  split; [exact Ha | apply Hc; reflexivity].
Defined.

Lemma sub_without_borrow_in_witness :
  A (sub 0x13 false cpu_regs) = 0xff /\
  getFlag carry (sub 0x13 false cpu_regs) = 1.
Proof.
  assert (Hr : byte_ok 0x13) by (unfold byte_ok; lia).
  destruct (@sub_without_borrow_in unit 0x13 false cpu_regs Hr
              byte_ok_A_cpu_regs eq_refl) as (Ha & Hc & _).
  split; [exact Ha | apply Hc; reflexivity].
Defined.

Lemma inx_dcx_wrap_and_keep_flags_witness :
  get_r16 rSP (exec 0x33 sample_cpu) = 0x2001 /\
  get_r16 rSP (exec 0x3b (exec 0x33 sample_cpu)) = 0x2000.
Proof.
  destruct (@inx_dcx_wrap_and_keep_flags unit 0x33 0x3b rSP sample_cpu)
    as (Hi & _ & _ & _ & Hback).
  - cbn [In inx_dcx]. tauto.
  - split; [exact Hi | apply Hback; unfold word_ok; cbn; lia].
Defined.

Lemma inr_dcr_wrap_and_keep_carry_witness :
  get_r8 rB (inr rB cpu_regs) = 0x57 /\
  getFlag carry (inr rB cpu_regs) = 1.
Proof.
  assert (Hr : rB <> rFlags) by discriminate.
  destruct (@inr_dcr_wrap_and_keep_carry unit rB cpu_regs Hr)
    as ((Hi & _) & (Hc & _) & _).
  split; [exact Hi | exact Hc].
Defined.

Lemma inr_dcr_round_trip_witness :
  get_r8 rAtHL (dcr rAtHL (inr rAtHL cpu_regs)) = 0.
Proof.
  assert (Hr : rAtHL <> rFlags) by discriminate.
  assert (Hb : byte_ok (get_r8 rAtHL cpu_regs))
    by (unfold byte_ok; cbn; unfold zero_ram; lia).
  exact (proj1 (@inr_dcr_round_trip unit rAtHL cpu_regs Hr Hb)).
Defined.

Lemma logic_ops_combine_and_clear_carry_witness :
  A (logicAnd 0x0f cpu_regs) = 0x02 /\
  getFlag carry (logicAnd 0x0f cpu_regs) = 0.
Proof.
  assert (Hr : byte_ok 0x0f) by (unfold byte_ok; lia).
  destruct (@logic_ops_combine_and_clear_carry unit logicAnd Z.land 0x0f
              cpu_regs (or_introl eq_refl) Hr byte_ok_A_cpu_regs)
    as (Ha & Hc & _).
  split; [exact Ha | exact Hc].
Defined.

Lemma accumulator_idioms_witness :
  A (exec 0xaf cpu_regs) = 0 /\
  A (exec 0xb7 cpu_regs) = 0x12 /\ getFlag carry (exec 0xb7 cpu_regs) = 0.
Proof.
  destruct (@accumulator_idioms unit cpu_regs) as ((Hx & _) & _ & Hora).
  destruct (Hora byte_ok_A_cpu_regs) as ((Ha & Hc & _) & _).
  split; [exact Hx | split; [exact Ha | exact Hc]].
Defined.

Lemma dad_adds_to_HL_witness :
  HL (dad rHL cpu_regs) = 0xbd78 /\ getFlag carry (dad rHL cpu_regs) = 1 /\
  getFlag zero (dad rHL cpu_regs) = 1.
Proof.
  assert (Hr : rHL <> rPSW) by discriminate.
  destruct (@dad_adds_to_HL unit rHL cpu_regs Hr) as (Hhl & Hc & Hf & _).
  split; [exact Hhl|]. split; [apply Hc; reflexivity|].
  rewrite (Hf zero eq_refl); [reflexivity | discriminate].
Defined.

Lemma complement_and_carry_instructions_witness :
  A (exec 0x2f cpu_regs) = 0xed /\
  A (exec 0x2f (exec 0x2f cpu_regs)) = 0x12 /\
  getFlag sign (exec 0x3f cpu_regs) = 1.
Proof.
  destruct (@complement_and_carry_instructions unit cpu_regs)
    as (_ & Hcma & _ & _ & Hf & _).
  destruct (Hcma byte_ok_A_cpu_regs) as [H1 H2].
  split; [exact H1|]. split; [exact H2|].
  destruct (Hf sign eq_refl) as [_ Hcmc]; [discriminate|].
  rewrite Hcmc. reflexivity.
Defined.

Lemma daa_keeps_valid_decimal_witness :
  bcd_ok (A cpu_bcd) /\ A (exec 0x27 cpu_bcd) = 0x42.
Proof.
  assert (Hb : bcd_ok (A cpu_bcd)) by (unfold bcd_ok; cbn; lia).
  split; [exact Hb|].
  destruct (@daa_keeps_valid_decimal unit cpu_bcd Hb eq_refl eq_refl)
    as (_ & Ha & _).
  exact Ha.
Defined.

Lemma xchg_swaps_and_is_an_involution_witness :
  _HL (exec 0xeb cpu_regs) = mkPair 0x78 0x9a /\
  exec 0xeb (exec 0xeb cpu_regs) = cpu_regs.
Proof.
  destruct cpu_ok_cpu_regs as ((_ & _ & _ & _ & HD & HE & HH & HL') & _).
  destruct (@xchg_swaps_and_is_an_involution unit cpu_regs HD HE HH HL')
    as (Hhl & _ & Hinv).
  split; [exact Hhl | exact Hinv].
Defined.

Lemma xthl_swaps_and_is_an_involution_witness :
  HL (exec 0xe3 cpu_regs) = 0 /\ atSP (exec 0xe3 cpu_regs) = 0xdebc /\
  _HL (exec 0xe3 (exec 0xe3 cpu_regs)) = mkPair 0xbc 0xde.
Proof.
  destruct cpu_ok_cpu_regs as ((_ & _ & _ & _ & _ & _ & HH & HL') & _ & _ & Hram).
  destruct (@xthl_swaps_and_is_an_involution unit cpu_regs HH HL'
              (Hram _) (Hram _)) as (H1 & H2 & _ & _ & H3 & _).
  split; [exact H1 | split; [exact H2 | exact H3]].
Defined.

Lemma call_then_ret_comes_back_witness :
  SP (exec 0xcd sample_cpu) = 0x1ffe /\
  PC (exec 0xc9 (exec 0xcd sample_cpu)) = 0x102 /\
  SP (exec 0xc9 (exec 0xcd sample_cpu)) = 0x2000.
Proof.
  assert (Hsp : word_ok (SP sample_cpu)) by (unfold word_ok; cbn; lia).
  destruct (@call_then_ret_comes_back unit 0xcd 0xc9 sample_cpu
              (or_introl eq_refl) (or_introl eq_refl) Hsp)
    as (_ & H1 & _ & H2 & H3).
  split; [exact H1 | split; [exact H2 | exact H3]].
Defined.

Lemma rst_calls_fixed_address_witness :
  PC (exec 0xcf sample_cpu) = 8 /\
  PC (exec 0xd9 (exec 0xcf sample_cpu)) = 0x100.
Proof.
  assert (Hpc : word_ok (PC sample_cpu)) by (unfold word_ok; cbn; lia).
  assert (Hsp : word_ok (SP sample_cpu)) by (unfold word_ok; cbn; lia).
  destruct (@rst_calls_fixed_address unit 0xcf 1 0xd9 sample_cpu
              (or_intror (or_introl eq_refl))
              (or_intror (or_introl eq_refl)) Hpc Hsp)
    as (H1 & _ & _ & H2 & _).
  split; [exact H1 | exact H2].
Defined.

Lemma taken_transfer_is_unconditional_witness :
  exec 0xca cpu_zero_set = exec 0xc3 cpu_zero_set /\
  exec 0xcc cpu_zero_set = exec 0xcd cpu_zero_set.
Proof.
  destruct (@taken_transfer_is_unconditional unit 0xca zero 1 cpu_zero_set
              eq_refl) as [Hj _].
  destruct (@taken_transfer_is_unconditional unit 0xcc zero 1 cpu_zero_set
              eq_refl) as [_ Hc].
  split.
  - apply Hj. cbn [conditional_jumps conditional_transfers firstn In]. tauto.
  - apply Hc. cbn [conditional_calls conditional_transfers skipn In]. tauto.
Defined.

Lemma conditional_return_semantics_witness :
  exec 0xc8 sample_cpu = sample_cpu /\
  exec 0xc8 cpu_zero_set = exec 0xc9 cpu_zero_set.
Proof.
  assert (Hin : In (0xc8, zero, 1) conditional_returns)
    by (cbn [conditional_returns In]; tauto).
  split.
  - apply (proj1 (@conditional_return_semantics unit 0xc8 zero 1
                    sample_cpu Hin)).
    vm_compute. discriminate.
  - apply (proj2 (@conditional_return_semantics unit 0xc8 zero 1
                    cpu_zero_set Hin)).
    reflexivity.
Defined.

Lemma asciiToHex_decodes_upper_case_digits_witness :
  "B"%char = hex_digit 11 /\ asciiToHex (hex_digit 11) = 11.
Proof.
  destruct asciiToHex_decodes_upper_case_digits as (_ & Hdec & Henc).
  split.
  - apply (Hdec "B"%char). vm_compute. discriminate.
  - apply Henc. lia.
Defined.

Lemma record_header_is_parsed_witness :
  let st := record_loop ":"%string 1 (mkHex 0 0 0 0 []) in
  byteCount (record_loop "03123400" 1 st) = 3 /\
  adr (record_loop "03123400" 1 st) = 0x1234.
Proof.
  cbv zeta.
  assert (Hds : digits_ok [0; 3; 1; 2; 3; 4; 0; 0])
    by (repeat constructor; lia).
  destruct (record_header_is_parsed 0 3 1 2 3 4 0 0
              (record_loop ":"%string 1 (mkHex 0 0 0 0 [])) Hds)
    as (Hcount & Hadr & _).
  split; [exact Hcount | exact Hadr].
Defined.

Lemma loader_always_returns_witness :
  loadIntelHexFile None zero_ram = Some (false, zero_ram).
Proof.
  destruct (loader_always_returns None zero_ram)
    as (ok & m' & Hload & Hok & Hm).
  assert (Hfalse : ok = false) by (apply Hok; reflexivity).
  rewrite Hload, (Hm Hfalse), Hfalse. reflexivity.
Defined.

Lemma records_push_appends_to_its_run_witness :
  keys_increasing sample_runs /\
  records_find 5 (records_push 5 7 sample_runs) = [2; 7] /\
  records_find 3 (records_push 5 7 sample_runs) = [1].
Proof.
  assert (Hinc : keys_increasing sample_runs) by (cbn; lia).
  split; [exact Hinc|].
  destruct (records_push_appends_to_its_run 5 7 sample_runs Hinc)
    as (_ & Hfind & Hother).
  split; [exact Hfind | apply Hother; lia].
Defined.

Lemma interrupt_latches_once_witness :
  interruptPending (interrupt 0xc7 cpu_irq_on) = true /\
  interruptVector (interrupt 0xc7 cpu_irq_on) = 0xc7 /\
  interrupt 0xcf (interrupt 0xc7 cpu_irq_on) = interrupt 0xc7 cpu_irq_on /\
  interrupt 0xc7 sample_cpu = sample_cpu.
Proof.
  destruct (@interrupt_latches_once unit cpu_irq_on 0xc7 0xcf)
    as (Honce & _ & Hon).
  destruct (Hon eq_refl) as (Hp & Hv & _).
  destruct (@interrupt_latches_once unit sample_cpu 0xc7 0xcf)
    as (_ & Hoff & _).
  split; [exact Hp|]. split; [exact Hv|]. split; [exact Honce|].
  apply Hoff. reflexivity.
Defined.

Lemma exec_keeps_interrupt_latch_witness :
  interruptPending (exec 0xfb cpu_latched) = true /\
  halted (exec 0xfb cpu_latched) = false /\
  interruptsEnabled (exec 0x3c cpu_latched) = false.
Proof.
  destruct (@exec_keeps_interrupt_latch unit 0xfb cpu_latched)
    as (Hp & _ & Hh & _).
  destruct (@exec_keeps_interrupt_latch unit 0x3c cpu_latched)
    as (_ & _ & _ & Hie & _).
  split; [exact Hp|]. split; [apply Hh; discriminate|].
  apply Hie; discriminate.
Defined.

Lemma step_takes_or_keeps_latch_witness :
  interruptPending (step cpu_latched) = true /\
  interruptVector (step cpu_latched) = 0xc7 /\
  interruptPending (step (exec 0xfb cpu_latched)) = false.
Proof.
  destruct (@step_takes_or_keeps_latch unit cpu_latched eq_refl)
    as (_ & Hkeep).
  destruct (@step_takes_or_keeps_latch unit (exec 0xfb cpu_latched) eq_refl)
    as (Htake & _).
  destruct (Hkeep eq_refl) as [Hp Hv].
  split; [exact Hp|]. split; [exact Hv|].
  exact (proj1 (Htake eq_refl)).
Defined.

Lemma fixed_bits_always_hold_witness :
  fixed_bits (flags sample_cpu) /\
  fixed_bits (flags (exec 0xf1 sample_cpu)) /\
  fixed_bits (flags (run_action DoStep sample_cpu)).
Proof.
  assert (Hs : fixed_bits (flags sample_cpu)) by (repeat split).
  destruct (@fixed_bits_always_hold unit) as (Hexec & Hact & _).
  split; [exact Hs|]. split; [now apply Hexec | now apply Hact].
Defined.

Lemma machine_ranges_are_kept_witness :
  cpu_ok cpu_regs /\ cpu_ok (exec 0x3c cpu_regs) /\
  cpu_ok (run_action (DoLoad 0x100 [0x3e; 0xff]) cpu_regs).
Proof.
  destruct (@machine_ranges_are_kept unit) as (Hexec & Hact & _).
  split; [exact cpu_ok_cpu_regs|].
  split; [apply Hexec, cpu_ok_cpu_regs|].
  apply Hact; [|exact cpu_ok_cpu_regs].
  cbn [action_ok]. repeat constructor; unfold byte_ok; lia.
Defined.
